(** * release-please-detect-major-changes: the manifest-diff engine

    A shallow embedding of [src/utils/version.ts] and of
    [analyzeManifestChanges] in [src/utils/manifest.ts].

    - A manifest ([Record<string, string>], a JS object used as a map from
      package path to version string) is a [gmap string string]; [null] is
      [None].  The map holds the entries of the object; reading and
      assigning a property go through [get_property] and [set_property],
      which know the members every plain object inherits from
      [Object.prototype].  [semver.parse] answers [null] to a value that
      is not a string.
    - [Object.entries] enumerates the map ([map_to_list]).  The order of
      the enumeration decides only which offending string is reported when
      several entries are malformed ([for_of_permutation]).
    - A [throw] is the [Throw] branch of the [result] monad; the thrown
      value is a JS [Error] with its message.
    - The numbers [major], [minor] and [patch] are non-negative integers
      ([N]).
    - The [semver] package ([import semver from 'semver']) is an interface
      the program is linked against: the class [Semver].  Everything about
      [isMajorBump] and [analyzeManifestChanges] is proved for every
      implementation of it; what [parseVersion] accepts is stated for the
      package as the spec describes it ([spec_semver]).
    - [getManifestAtRef], [detectMajorBumps] and [run] ([src/main.ts]) are
      [async]: a promise is its settled state ([settled]), [await] is the
      bind of that monad.  The collaborators are parameters: the Octokit
      client, the decoding and parsing of a file content, [JSON.stringify]
      ([Runtime]), the inputs and the event ([Toolkit]).  [run] is the
      list of the calls it makes to [core.info], [core.setOutput] and
      [core.setFailed], which are taken not to throw. *)

From Stdlib Require Import Ascii NArith DecimalString.
From stdpp Require Import gmap strings list fin_maps.

Open Scope string_scope.

(* ===================================================================== *)
(** ** Exceptions *)
(* ===================================================================== *)

(** A thrown JS [Error] object, identified by its [message]. *)
Inductive exn : Type :=
  | Error (message : string).

Inductive result (A : Type) : Type :=
  | Ok (a : A)
  | Throw (e : exn).
Arguments Ok {A} a.
Arguments Throw {A} e.

Definition bind {A B : Type} (m : result A) (k : A -> result B) : result B :=
  match m with
  | Ok a => k a
  | Throw e => Throw e
  end.

Notation "'let*' x ':=' m 'in' k" := (bind m (fun x => k))
  (at level 10, x name, m at level 100, k at level 200).

(** [new Error(`Invalid version format: ${version}`)]: the spec's
    [InvalidVersionFormat], carrying the offending input. *)
Definition InvalidVersionFormat (version : string) : exn :=
  Error ("Invalid version format: " +:+ version).

(* ===================================================================== *)
(** ** src/utils/version.ts *)
(* ===================================================================== *)

(** [type SemVer = { version: string; major: number; minor: number;
    patch: number }]. *)
Record SemVer : Type := mkSemVer {
  version : string;
  major : N;
  minor : N;
  patch : N
}.

(** The part of the [semver] package the program uses: [semver.parse],
    which returns a parsed object or [null]. *)
Class Semver : Type := {
  semver_parse : string -> option SemVer
}.

Section Version.
Context `{Semver}.

Definition parseVersion (version : string) : result SemVer :=
  match semver_parse version with
  | None => Throw (InvalidVersionFormat version)
  | Some (mkSemVer parsed_version parsed_major parsed_minor parsed_patch) =>
      Ok {| version := parsed_version ;
            major := parsed_major ;
            minor := parsed_minor ;
            patch := parsed_patch |}
  end.

Definition isMajorBump (oldVersion newVersion : string) : result bool :=
  let* oldVer := parseVersion oldVersion in
  let* newVer := parseVersion newVersion in
  Ok (major oldVer <? major newVer)%N.
End Version.

(* ===================================================================== *)
(** ** src/utils/manifest.ts *)
(* ===================================================================== *)

(** [interface ManifestAnalysis { hasMajorBump: boolean;
    majorBumps: Record<string, [string, string]> }]. *)
Record ManifestAnalysis : Type := mkManifestAnalysis {
  hasMajorBump : bool;
  majorBumps : gmap string (string * string)
}.

(** [Object.entries(o)] and [Object.keys(o)] of an object used as a map. *)
Definition Object_entries {V : Type} (o : gmap string V) : list (string * V) :=
  map_to_list o.

Definition Object_keys {V : Type} (o : gmap string V) : list string :=
  (map_to_list o).*1.

(** What reading a property of a manifest can give: a string (an entry
    of the manifest), or an object (a member the manifest inherits from
    [Object.prototype]), of which the program only ever uses the text a
    template literal prints for it. *)
Inductive js_value : Type :=
  | JsString (s : string)
  | JsObject (text : string).

(** The text of a built-in function. *)
Definition native_function (name : string) : string :=
  "function " +:+ name +:+ "() { [native code] }".

(** The members of [Object.prototype], which every manifest (a plain
    object, as [JSON.parse] makes them) inherits, each with its text:
    [constructor] is [Object], [__proto__] is an accessor whose getter
    gives [Object.prototype] itself, the others are built-in functions
    of their own name. *)
Definition Object_prototype (name : string) : option string :=
  if bool_decide (name = "__proto__") then Some "[object Object]"
  else if bool_decide (name = "constructor") then Some (native_function "Object")
  else if bool_decide (name ∈ ["__defineGetter__"; "__defineSetter__";
                               "__lookupGetter__"; "__lookupSetter__";
                               "hasOwnProperty"; "isPrototypeOf";
                               "propertyIsEnumerable"; "toLocaleString";
                               "toString"; "valueOf"])
  then Some (native_function name)
  else None.

(** [o[path]] on a plain object: the entry of the object if it has one,
    otherwise the member of [Object.prototype] of that name, otherwise
    [undefined]. *)
Definition get_property (o : gmap string string) (path : string)
    : option js_value :=
  match o !! path with
  | Some s => Some (JsString s)
  | None => JsObject <$> Object_prototype path
  end.

(** [o[path] = v] on a plain object.  For [path = "__proto__"] on an
    object without an entry of that name, the assignment runs the setter
    of [Object.prototype]: it changes the prototype of [o] and gives [o]
    no entry.  ([Object.keys], [Object.entries] and [JSON.stringify] see
    the entries only.) *)
Definition set_property {V : Type} (o : gmap string V) (path : string) (v : V)
    : gmap string V :=
  if bool_decide (path = "__proto__") then
    match o !! path with
    | Some _ => <[path := v]> o
    | None => o
    end
  else <[path := v]> o.

(** A string is falsy exactly when it is empty. *)
Definition truthy (s : string) : bool := bool_decide (s ≠ "").

Section Manifest.
Context `{Semver}.

(** The condition of the [if] in the loop body, for an [oldVersion] that
    is not [undefined]: [&&] evaluates left to right and stops at the
    first falsy operand, so [isMajorBump] runs only for a non-empty
    [oldVersion] that differs from [newVersion]. *)
Definition is_recorded (oldVersion newVersion : string) : result bool :=
  if truthy oldVersion then
    if bool_decide (oldVersion ≠ newVersion) then
      isMajorBump oldVersion newVersion
    else Ok false
  else Ok false.

(** One iteration of [for (const [path, newVersion] of ...)].
    [oldManifest?.[path]] is [undefined] (falsy) for a path that the old
    manifest neither has nor inherits.  A member inherited from
    [Object.prototype] is an object: it is truthy and [!==] any string,
    so [isMajorBump] is called with it, and its first [parseVersion]
    throws, printing the member in the message. *)
Definition visit (oldManifest : gmap string string)
    (majorBumps : gmap string (string * string))
    (entry : string * string) : result (gmap string (string * string)) :=
  let '(path, newVersion) := entry in
  match get_property oldManifest path with
  | None => Ok majorBumps
  | Some (JsString oldVersion) =>
      let* recorded := is_recorded oldVersion newVersion in
      Ok (if recorded : bool
          then set_property majorBumps path (oldVersion, newVersion)
          else majorBumps)
  | Some (JsObject text) => Throw (InvalidVersionFormat text)
  end.

(** The [for ... of] loop: a [throw] in an iteration leaves the loop. *)
Fixpoint for_of (oldManifest : gmap string string)
    (entries : list (string * string))
    (majorBumps : gmap string (string * string))
    : result (gmap string (string * string)) :=
  match entries with
  | [] => Ok majorBumps
  | entry :: rest =>
      let* majorBumps' := visit oldManifest majorBumps entry in
      for_of oldManifest rest majorBumps'
  end.

Definition analyzeManifestChanges
    (oldManifest newManifest : option (gmap string string))
    : result ManifestAnalysis :=
  let majorBumps : gmap string (string * string) := ∅ in
  match oldManifest, newManifest with
  | Some oldManifest, Some newManifest =>
      let* majorBumps :=
        for_of oldManifest (Object_entries newManifest) majorBumps in
      Ok {| hasMajorBump := (0 <? length (Object_keys majorBumps))%nat ;
            majorBumps := majorBumps |}
  | _, _ => Ok {| hasMajorBump := false ; majorBumps := ∅ |}
  end.
End Manifest.

(* ===================================================================== *)
(** ** The version grammar of the [semver] package, after the spec *)
(* ===================================================================== *)

(** Modelled from the spec: the characters of an integer of the pattern
    (the grammar of the [semver] package is not part of the sources). *)
Definition is_digit (c : ascii) : bool :=
  match c with
  | "0" | "1" | "2" | "3" | "4" | "5" | "6" | "7" | "8" | "9" => true
  | _ => false
  end%char.

(** Modelled from the spec: a run of digits. *)
Fixpoint all_digits (s : string) : bool :=
  match s with
  | "" => true
  | String c rest => is_digit c && all_digits rest
  end.

(** Modelled from the spec: the longest run of leading digits of [s], and
    what follows it. *)
Fixpoint span_digits (s : string) : string * string :=
  match s with
  | "" => ("", "")
  | String c rest =>
      if is_digit c
      then let '(ds, r) := span_digits rest in (String c ds, r)
      else ("", s)
  end.

(** Modelled from the spec: the non-negative integer a non-empty run of
    digits stands for. *)
Definition integer (ds : string) : option N :=
  N.of_uint <$> NilZero.uint_of_string ds.

(** What is left of a string once its leading digits have been taken:
    nothing, or something that starts with a character that is not a
    digit. *)
Definition stops (r : string) : Prop :=
  match r with
  | "" => True
  | String c _ => is_digit c = false
  end.

(** Modelled from the spec: at most one leading character that is not a
    digit is dropped before parsing. *)
Definition strip_marker (text : string) : string :=
  match text with
  | "" => ""
  | String c rest => if is_digit c then text else rest
  end.

(** Modelled from the spec: the dot between two integers. *)
Definition expect_dot (s : string) : option string :=
  match s with
  | String "."%char rest => Some rest
  | _ => None
  end.

(** Modelled from the spec: [semver.parse] of the [semver] package, which
    is imported by [version.ts] and is not part of the sources.  After the
    spec's section 4.1: an optional single non-digit prefix, then exactly
    three dot-separated non-negative integers and nothing after them; the
    result holds the three integers and the canonical string, which is
    the input without its prefix. *)
Definition spec_semver_parse (text : string) : option SemVer :=
  let '(a, r1) := span_digits (strip_marker text) in
  ma ← integer a;
  r1 ← expect_dot r1;
  let '(b, r2) := span_digits r1 in
  mi ← integer b;
  r2 ← expect_dot r2;
  let '(c, r3) := span_digits r2 in
  pa ← integer c;
  if bool_decide (r3 = "")
  then Some {| version := strip_marker text ;
               major := ma ; minor := mi ; patch := pa |}
  else None.

(** Modelled from the spec: the [semver] package as the spec describes
    it, see [spec_semver_parse]. *)
Definition spec_semver : Semver := {| semver_parse := spec_semver_parse |}.

(** Modelled from the spec: the pattern in the spec's own words,
    [[optional single non-digit prefix]INT.INT.INT] with no further
    suffix.  [INT] is a non-empty run of digits. *)
Definition INT (s : string) : Prop := s ≠ "" ∧ all_digits s = true.

(** Modelled from the spec: the optional single non-digit prefix. *)
Definition marker (pre : string) : Prop :=
  pre = "" ∨ ∃ c, is_digit c = false ∧ pre = String c "".

(** Modelled from the spec: the strings of the pattern. *)
Definition version_shape (text : string) : Prop :=
  ∃ pre a b c,
    marker pre ∧ INT a ∧ INT b ∧ INT c ∧
    text = pre +:+ a +:+ "." +:+ b +:+ "." +:+ c.

(* ===================================================================== *)
(** ** Promises and thrown values *)
(* ===================================================================== *)

(** A value that is thrown, or that a promise is rejected with.  The
    program looks at such a value in two places only: the [catch] of
    [getManifestAtRef] asks whether it is an object with a [status]
    property equal to 404, and the [catch] of [run] asks whether it is an
    [Error] (and then reads its message).  [status] is the numeric
    [status] property of an object that has one. *)
Inductive thrown : Type :=
  | ThrownObject (as_Error : option exn) (status : option Z)
  | ThrownPrimitive (text : string).

(** An [Error] thrown by the program itself: it has no [status]. *)
Definition thrown_of_exn (e : exn) : thrown := ThrownObject (Some e) None.

(** A settled promise. *)
Inductive settled (A : Type) : Type :=
  | Fulfilled (a : A)
  | Rejected (error : thrown).
Arguments Fulfilled {A} a.
Arguments Rejected {A} error.

(** [await]: the rest of an [async] function runs on the fulfilled value,
    and a rejection rejects the function's own promise. *)
Definition await {A B : Type} (p : settled A) (k : A -> settled B) : settled B :=
  match p with
  | Fulfilled a => k a
  | Rejected error => Rejected error
  end.

Notation "'let^' x ':=' p 'in' k" := (await p (fun x => k))
  (at level 10, x name, p at level 100, k at level 200).

(** A synchronous [throw] inside an [async] function rejects its promise. *)
Definition of_result {A : Type} (r : result A) : settled A :=
  match r with
  | Ok a => Fulfilled a
  | Throw e => Rejected (thrown_of_exn e)
  end.

(** [error && typeof error === 'object' && 'status' in error] and then
    [error.status === 404]. *)
Definition is_not_found (error : thrown) : bool :=
  match error with
  | ThrownObject _ (Some status) => bool_decide (status = 404%Z)
  | _ => false
  end.

(* ===================================================================== *)
(** ** src/utils/manifest.ts: fetching the two snapshots *)
(* ===================================================================== *)

(** The [data] of a [repos.getContent] response, as far as the program
    reads it: the [content] property, when [data] has one. *)
Record ContentData : Type := mkContentData {
  content : option string
}.

(** The part of an Octokit client the program uses:
    [octokit.rest.repos.getContent({owner, repo, path, ref})]. *)
Record Octokit : Type := mkOctokit {
  rest_repos_getContent : string -> string -> string -> string -> settled ContentData
}.

(** [context.payload.pull_request], as far as the program reads it. *)
Record PullRequest : Type := mkPullRequest {
  base_sha : string;
  head_sha : string
}.

(** [context] of [@actions/github]. *)
Record Context : Type := mkContext {
  repo_owner : string;
  repo_repo : string;
  payload_pull_request : option PullRequest
}.

(** What the program uses of the JS runtime.
    - [JSON_parse_base64 content] is
      [JSON.parse(Buffer.from(content, 'base64').toString('utf-8'))], cast
      to a manifest; it throws on text that is not JSON, and the JSON
      value [null] is [None].
    - [JSON_stringify] is [JSON.stringify] on a [majorBumps] object.
    - [Promise.all] rejects with the reason of the promise that rejects
      first; when both fetches reject, [head_rejects_first] says which one
      did, which is decided by the network and not by the program. *)
Class Runtime : Type := {
  JSON_parse_base64 : string -> settled (option (gmap string string));
  JSON_stringify : gmap string (string * string) -> string;
  head_rejects_first : bool
}.

(** What the program uses of [@actions/core] and [@actions/github], apart
    from the logging and output calls, which are recorded as [call]s.
    [getInput name required] is [core.getInput(name, {required})]. *)
Class Toolkit : Type := {
  context : Context;
  getInput : string -> bool -> settled string;
  getOctokit : string -> settled Octokit
}.

(** [Promise.all([p1, p2])]. *)
Definition Promise_all `{Runtime} {A B : Type}
    (p1 : settled A) (p2 : settled B) : settled (A * B) :=
  match p1, p2 with
  | Fulfilled a, Fulfilled b => Fulfilled (a, b)
  | Rejected error, Fulfilled _ => Rejected error
  | Fulfilled _, Rejected error => Rejected error
  | Rejected error1, Rejected error2 =>
      Rejected (if head_rejects_first then error2 else error1)
  end.

Section Fetch.
Context `{Semver} `{Runtime} `{Toolkit}.

(** The body of the [try] block of [getManifestAtRef]. *)
Definition getManifestAtRef_try (octokit : Octokit)
    (manifestPath ref : string) : settled (option (gmap string string)) :=
  let^ data :=
    rest_repos_getContent octokit
      (repo_owner context) (repo_repo context) manifestPath ref in
  match content data with
  | Some content =>
      if truthy content then JSON_parse_base64 content else Fulfilled None
  | None => Fulfilled None
  end.

Definition getManifestAtRef (octokit : Octokit)
    (manifestPath ref : string) : settled (option (gmap string string)) :=
  match getManifestAtRef_try octokit manifestPath ref with
  | Fulfilled manifest => Fulfilled manifest
  | Rejected error =>
      if is_not_found error then Fulfilled None else Rejected error
  end.

Definition detectMajorBumps (octokit : Octokit)
    (manifestPath baseSha headSha : string) : settled ManifestAnalysis :=
  let^ manifests :=
    Promise_all (getManifestAtRef octokit manifestPath baseSha)
                (getManifestAtRef octokit manifestPath headSha) in
  let '(oldManifest, newManifest) := manifests in
  of_result (analyzeManifestChanges oldManifest newManifest).
End Fetch.

(* ===================================================================== *)
(** ** src/main.ts *)
(* ===================================================================== *)

Definition INPUT_GITHUB_TOKEN : string := "github_token".
Definition INPUT_MANIFEST_FILE : string := "manifest_file".
Definition OUTPUT_HAS_MAJOR_BUMP : string := "has_major_bump".
Definition OUTPUT_UPDATED_PATHS : string := "updated_paths".

(** The calls [run] makes to [@actions/core] that leave a trace:
    [core.info], [core.setOutput] (with a boolean or with a string) and
    [core.setFailed]. *)
Inductive call : Type :=
  | core_info (message : string)
  | core_setOutput_boolean (name : string) (value : bool)
  | core_setOutput_string (name : string) (value : string)
  | core_setFailed (message : string).

(** A computation that makes [call]s and then fulfils or rejects. *)
Definition traced (A : Type) : Type := list call * settled A.

Definition traced_bind {A B : Type} (m : traced A) (k : A -> traced B) : traced B :=
  match m with
  | (calls, Fulfilled a) => let '(calls', r) := k a in ((calls ++ calls')%list, r)
  | (calls, Rejected error) => (calls, Rejected error)
  end.

Definition quiet {A : Type} (p : settled A) : traced A := ([], p).

Definition emit (c : call) : traced unit := ([c], Fulfilled tt).

Notation "'let!' x ':=' m 'in' k" := (traced_bind m (fun x => k))
  (at level 10, x name, m at level 100, k at level 200).

Section Main.
Context `{Semver} `{Runtime} `{Toolkit}.

(** The [core.info] line of one entry of [analysis.majorBumps]. *)
Definition bump_line (entry : string * (string * string)) : call :=
  let '(path, (oldVersion, newVersion)) := entry in
  core_info ("📈 " +:+ path +:+ ": " +:+ oldVersion +:+ " → " +:+ newVersion).

(** The body of the [try] block of [run]. *)
Definition run_try : traced unit :=
  match payload_pull_request context with
  | None =>
      quiet (Rejected (thrown_of_exn
        (Error "⛔️ This action can only be run on pull_request events")))
  | Some pr =>
      let! token := quiet (getInput INPUT_GITHUB_TOKEN true) in
      let! manifest_file := quiet (getInput INPUT_MANIFEST_FILE false) in
      let manifestFile :=
        if truthy manifest_file then manifest_file
        else ".release-please-manifest.json" in
      let! octokit := quiet (getOctokit token) in
      let baseSha := base_sha pr in
      let headSha := head_sha pr in
      let! _ := emit (core_info ("Analyzing " +:+ manifestFile +:+
                                 " changes between " +:+ baseSha +:+
                                 " and " +:+ headSha)) in
      let! analysis :=
        quiet (detectMajorBumps octokit manifestFile baseSha headSha) in
      let! _ :=
        if hasMajorBump analysis
        then (core_info "🚨 Major version bump(s) detected!"
                :: (bump_line <$> Object_entries (majorBumps analysis)),
              Fulfilled tt)
        else emit (core_info "✅ No major version bumps detected") in
      let! _ := emit (core_setOutput_boolean OUTPUT_HAS_MAJOR_BUMP
                        (hasMajorBump analysis)) in
      emit (core_setOutput_string OUTPUT_UPDATED_PATHS
              (JSON_stringify (majorBumps analysis)))
  end.

(** The message [run] fails with: [error instanceof Error] decides. *)
Definition failure_message (error : thrown) : string :=
  match error with
  | ThrownObject (Some (Error message)) _ => "Action failed: " +:+ message
  | _ => "Action failed with unknown error"
  end.

(** [run]: the calls it makes; its [catch] turns every rejection of the
    [try] block into one [core.setFailed]. *)
Definition run : list call :=
  match run_try with
  | (calls, Fulfilled _) => calls
  | (calls, Rejected error) =>
      (calls ++ [core_setFailed (failure_message error)])%list
  end.
End Main.

(** A call of [core.info]. *)
Definition is_info (c : call) : Prop := ∃ message, c = core_info message.

(** The manifest path [run] uses for a given [manifest_file] input:
    [core.getInput(INPUT_MANIFEST_FILE) || '.release-please-manifest.json']. *)
Definition manifest_file_or_default (manifest_file : string) : string :=
  if truthy manifest_file then manifest_file
  else ".release-please-manifest.json".

(* ===================================================================== *)
(** ** Stand-ins for the collaborators, after the mocks of the tests *)
(* ===================================================================== *)

(** A runtime that knows three file contents. *)
Definition mock_runtime : Runtime := {|
  JSON_parse_base64 content :=
    if bool_decide (content = "base manifest") then
      Fulfilled (Some {[ "." := "1.2.3" ; "packages/foo" := "3.5.0" ]})
    else if bool_decide (content = "head manifest") then
      Fulfilled (Some {[ "." := "2.0.0" ; "packages/foo" := "4.0.0" ]})
    else if bool_decide (content = "malformed manifest") then
      Fulfilled (Some {[ "." := "2.0" ]})
    else Rejected (thrown_of_exn (Error "Unexpected token"));
  JSON_stringify bumps :=
    if bool_decide (bumps = ∅) then "{}" else "{...}";
  head_rejects_first := false
|}.

(** An Octokit client whose answer depends on the ref only. *)
Definition mock_octokit (respond : string -> settled ContentData) : Octokit :=
  {| rest_repos_getContent owner repo path ref := respond ref |}.

(** Both manifests exist. *)
Definition respond_both (ref : string) : settled ContentData :=
  if bool_decide (ref = "base-sha-123")
  then Fulfilled {| content := Some "base manifest" |}
  else Fulfilled {| content := Some "head manifest" |}.

(** [mockRejectedValueOnce({ status: 404 })] at the base ref. *)
Definition respond_base_missing (ref : string) : settled ContentData :=
  if bool_decide (ref = "base-sha-123")
  then Rejected (ThrownObject None (Some 404%Z))
  else Fulfilled {| content := Some "head manifest" |}.

(** [mockRejectedValue({ status: 500, message: 'Server error' })]. *)
Definition respond_server_error (ref : string) : settled ContentData :=
  Rejected (ThrownObject None (Some 500%Z)).

(** The head manifest holds a malformed version. *)
Definition respond_malformed_head (ref : string) : settled ContentData :=
  if bool_decide (ref = "base-sha-123")
  then Fulfilled {| content := Some "base manifest" |}
  else Fulfilled {| content := Some "malformed manifest" |}.

(** The toolkit of main.test.ts: a token, a [manifest_file] input and a
    client. *)
Definition mock_toolkit (pull_request : option PullRequest)
    (manifest_file : string) (octokit : Octokit) : Toolkit := {|
  context := {| repo_owner := "test-owner" ;
                repo_repo := "test-repo" ;
                payload_pull_request := pull_request |};
  getInput name required :=
    if bool_decide (name = "github_token") then Fulfilled "test-token"
    else if bool_decide (name = "manifest_file") then Fulfilled manifest_file
    else Fulfilled "";
  getOctokit token := Fulfilled octokit
|}.

Definition mock_pull_request : PullRequest :=
  {| base_sha := "base-sha-123" ; head_sha := "head-sha-456" |}.

(* ===================================================================== *)
(** ** The examples of version.test.ts and of the spec's scenarios *)
(* ===================================================================== *)

Section Examples.
Local Existing Instance spec_semver.

(** version.test.ts, "should parse valid semantic version". *)
Example parse_valid :
  parseVersion "1.2.3" = Ok (mkSemVer "1.2.3" 1 2 3) ∧
  parseVersion "0.0.1" = Ok (mkSemVer "0.0.1" 0 0 1) ∧
  parseVersion "10.20.30" = Ok (mkSemVer "10.20.30" 10 20 30) ∧
  parseVersion "v1.2.3" = Ok (mkSemVer "1.2.3" 1 2 3) ∧
  parseVersion "v0.0.1" = Ok (mkSemVer "0.0.1" 0 0 1) ∧
  parseVersion "v10.20.30" = Ok (mkSemVer "10.20.30" 10 20 30).
Proof. repeat split; reflexivity. Qed.

(** version.test.ts, "should throw error for invalid version format". *)
Example parse_invalid :
  parseVersion "1.2" = Throw (Error "Invalid version format: 1.2") ∧
  parseVersion "1.2.3.4" = Throw (Error "Invalid version format: 1.2.3.4") ∧
  parseVersion "1.2.x" = Throw (Error "Invalid version format: 1.2.x") ∧
  parseVersion "" = Throw (Error "Invalid version format: ") ∧
  parseVersion "vv1.2.3" = Throw (Error "Invalid version format: vv1.2.3") ∧
  parseVersion "v1.2" = Throw (Error "Invalid version format: v1.2").
Proof. repeat split; reflexivity. Qed.

(** version.test.ts, "should detect major version bump" and "should not
    detect major bump". *)
Example isMajorBump_detects :
  isMajorBump "1.2.3" "2.0.0" = Ok true ∧
  isMajorBump "0.5.0" "1.0.0" = Ok true ∧
  isMajorBump "9.99.99" "10.0.0" = Ok true ∧
  isMajorBump "99.0.0" "100.0.0" = Ok true ∧
  isMajorBump "1.2.3" "1.3.0" = Ok false ∧
  isMajorBump "1.2.3" "1.2.4" = Ok false ∧
  isMajorBump "1.2.3" "1.2.3" = Ok false.
Proof. repeat split; reflexivity. Qed.

(** The spec's scenario F. *)
Example scenario_F :
  isMajorBump "1.2" "2.0.0" = Throw (InvalidVersionFormat "1.2").
Proof. reflexivity. Qed.

(** The spec's scenarios A to E (manifest.test.ts has the same cases). *)
Example scenario_A :
  analyzeManifestChanges (Some {[ "." := "1.2.3" ]}) (Some {[ "." := "2.0.0" ]})
  = Ok {| hasMajorBump := true ;
          majorBumps := {[ "." := ("1.2.3", "2.0.0") ]} |}.
Proof. vm_compute. reflexivity. Qed.

Example scenario_B :
  analyzeManifestChanges (Some {[ "." := "1.2.3" ]}) (Some {[ "." := "1.3.0" ]})
  = Ok {| hasMajorBump := false ; majorBumps := ∅ |}.
Proof. vm_compute. reflexivity. Qed.

Example scenario_C :
  analyzeManifestChanges
    (Some {[ "packages/foo" := "1.2.3" ; "packages/bar" := "2.5.0" ]})
    (Some {[ "packages/foo" := "2.0.0" ; "packages/bar" := "2.1.0" ]})
  = Ok {| hasMajorBump := true ;
          majorBumps := {[ "packages/foo" := ("1.2.3", "2.0.0") ]} |}.
Proof. vm_compute. reflexivity. Qed.

Example scenario_D :
  analyzeManifestChanges
    (Some {[ "." := "1.0.0" ]})
    (Some {[ "." := "1.1.0" ; "packages/new" := "2.0.0" ]})
  = Ok {| hasMajorBump := false ; majorBumps := ∅ |}.
Proof. vm_compute. reflexivity. Qed.

Example scenario_E :
  analyzeManifestChanges None (Some {[ "." := "1.0.0" ]})
  = Ok {| hasMajorBump := false ; majorBumps := ∅ |}.
Proof. reflexivity. Qed.
(** manifest.test.ts, "should detect major bumps by fetching manifests
    from base and head refs" and "should handle 404 error when manifest
    does not exist at base ref". *)
Example detect_both :
  @detectMajorBumps spec_semver mock_runtime
    (mock_toolkit (Some mock_pull_request) "" (mock_octokit respond_both))
    (mock_octokit respond_both)
    ".release-please-manifest.json" "base-sha-123" "head-sha-456"
  = Fulfilled {| hasMajorBump := true ;
                 majorBumps := {[ "." := ("1.2.3", "2.0.0") ;
                                  "packages/foo" := ("3.5.0", "4.0.0") ]} |}.
Proof. vm_compute. reflexivity. Qed.

Example detect_base_missing :
  @detectMajorBumps spec_semver mock_runtime
    (mock_toolkit (Some mock_pull_request) "" (mock_octokit respond_base_missing))
    (mock_octokit respond_base_missing)
    ".release-please-manifest.json" "base-sha-123" "head-sha-456"
  = Fulfilled {| hasMajorBump := false ; majorBumps := ∅ |}.
Proof. vm_compute. reflexivity. Qed.

(** main.test.ts, "should throw error when not run on pull_request
    event" and "should handle no major bumps" (here with a missing base
    manifest). *)
Example run_without_pull_request_event :
  @run spec_semver mock_runtime
    (mock_toolkit None "" (mock_octokit respond_both))
  = [core_setFailed
       "Action failed: ⛔️ This action can only be run on pull_request events"].
Proof. reflexivity. Qed.

Example run_base_missing :
  @run spec_semver mock_runtime
    (mock_toolkit (Some mock_pull_request) ""
       (mock_octokit respond_base_missing))
  = [core_info "Analyzing .release-please-manifest.json changes between base-sha-123 and head-sha-456";
     core_info "✅ No major version bumps detected";
     core_setOutput_boolean "has_major_bump" false;
     core_setOutput_string "updated_paths" "{}"].
Proof. vm_compute. reflexivity. Qed.
(** Paths that are names of members of [Object.prototype]: a new package
    named [toString], [constructor] or [__proto__] makes the analysis
    throw; a package named [__proto__] in both manifests is compared, and
    its bump is assigned to the prototype, not recorded. *)
Example new_package_named_like_inherited_members :
  analyzeManifestChanges (Some ∅) (Some {[ "toString" := "1.0.0" ]})
  = Throw (Error "Invalid version format: function toString() { [native code] }") ∧
  analyzeManifestChanges (Some ∅) (Some {[ "constructor" := "1.0.0" ]})
  = Throw (Error "Invalid version format: function Object() { [native code] }") ∧
  analyzeManifestChanges (Some ∅) (Some {[ "__proto__" := "1.0.0" ]})
  = Throw (Error "Invalid version format: [object Object]").
Proof. repeat split; vm_compute; reflexivity. Qed.

Example package_named_proto_in_both :
  analyzeManifestChanges
    (Some {[ "__proto__" := "1.0.0" ]}) (Some {[ "__proto__" := "2.0.0" ]})
  = Ok {| hasMajorBump := false ; majorBumps := ∅ |}.
Proof. vm_compute. reflexivity. Qed.
End Examples.

(* ===================================================================== *)
(** ** Facts about version.ts *)
(* ===================================================================== *)

Section VersionFacts.
Context `{Semver}.

Lemma parseVersion_Ok (text : string) (v : SemVer) :
  parseVersion text = Ok v ↔ semver_parse text = Some v.
Proof.
  unfold parseVersion.
  destruct (semver_parse text) as [[s a b c]|]; split; intros E;
    inversion E; reflexivity.
Qed.

Lemma parseVersion_Throw (text : string) (e : exn) :
  parseVersion text = Throw e ↔
  semver_parse text = None ∧ e = InvalidVersionFormat text.
Proof.
  unfold parseVersion.
  destruct (semver_parse text) as [[s a b c]|]; split.
  - discriminate.
  - intros [E _]. discriminate.
  - intros E. inversion E. done.
  - intros [_ ->]. reflexivity.
Qed.

Lemma parseVersion_cases (text : string) :
  (∃ v, parseVersion text = Ok v) ∨
  parseVersion text = Throw (InvalidVersionFormat text).
Proof.
  unfold parseVersion.
  destruct (semver_parse text) as [[s a b c]|]; eauto.
Qed.

Lemma isMajorBump_parsed (oldVersion newVersion : string) (vo vn : SemVer) :
  parseVersion oldVersion = Ok vo →
  parseVersion newVersion = Ok vn →
  isMajorBump oldVersion newVersion = Ok (major vo <? major vn)%N.
Proof. unfold isMajorBump. intros -> ->. reflexivity. Qed.

Lemma isMajorBump_Ok_inv (oldVersion newVersion : string) (b : bool) :
  isMajorBump oldVersion newVersion = Ok b →
  ∃ vo vn, parseVersion oldVersion = Ok vo ∧
           parseVersion newVersion = Ok vn ∧
           b = (major vo <? major vn)%N.
Proof.
  unfold isMajorBump.
  destruct (parseVersion oldVersion) as [vo|]; [|discriminate].
  destruct (parseVersion newVersion) as [vn|]; [|discriminate].
  cbn. intros [= <-]. eauto.
Qed.

(** A failure of [isMajorBump] is the failure of one of its two calls of
    [parseVersion], the old version being parsed first. *)
Lemma isMajorBump_Throw_inv (oldVersion newVersion : string) (e : exn) :
  isMajorBump oldVersion newVersion = Throw e →
  parseVersion oldVersion = Throw e ∨
  ((∃ vo, parseVersion oldVersion = Ok vo) ∧
   parseVersion newVersion = Throw e).
Proof.
  unfold isMajorBump.
  destruct (parseVersion oldVersion) as [vo|eo]; cbn.
  - destruct (parseVersion newVersion) as [vn|en]; cbn; [discriminate|].
    intros [= <-]. right. eauto.
  - intros [= <-]. by left.
Qed.

Lemma isMajorBump_unparsable (oldVersion newVersion : string) :
  semver_parse oldVersion = None ∨ semver_parse newVersion = None →
  ∃ bad, semver_parse bad = None ∧
         (bad = oldVersion ∨ bad = newVersion) ∧
         isMajorBump oldVersion newVersion = Throw (InvalidVersionFormat bad).
Proof.
  intros Hbad. unfold isMajorBump.
  destruct (parseVersion_cases oldVersion) as [[vo Eo]|Eo]; rewrite Eo; cbn.
  - destruct Hbad as [Hbad|Hbad].
    + apply parseVersion_Ok in Eo. congruence.
    + exists newVersion. split; [done|]. split; [by right|].
      assert (parseVersion newVersion
              = Throw (InvalidVersionFormat newVersion)) as ->; [|done].
      by apply parseVersion_Throw.
  - exists oldVersion. apply parseVersion_Throw in Eo as [Eo _]. eauto.
Qed.
End VersionFacts.

(** C1.  For version strings that both parse, [isMajorBump] returns [true]
    exactly when the major component of the new version is strictly greater
    than that of the old one; so it returns [false] when the majors are
    equal (whatever the minor and patch components), when the two strings
    are the same, and when the major component decreases. *)
Theorem isMajorBump_iff_major_increases `{Semver}
    (oldText newText : string) (vo vn : SemVer) :
  parseVersion oldText = Ok vo →
  parseVersion newText = Ok vn →
  ∃ b, isMajorBump oldText newText = Ok b ∧
       (b = true ↔ (major vo < major vn)%N) ∧
       (major vn = major vo → b = false) ∧
       (oldText = newText → b = false) ∧
       ((major vn < major vo)%N → b = false).
Proof.
  intros Eo En. exists (major vo <? major vn)%N.
  split; [by apply isMajorBump_parsed|].
  split; [apply N.ltb_lt|].
  repeat split.
  - intros ->. apply N.ltb_irrefl.
  - intros ->. rewrite Eo in En. injection En as ->. apply N.ltb_irrefl.
  - intros Hlt. apply N.ltb_ge. by apply N.lt_le_incl.
Qed.

Lemma isMajorBump_iff_major_increases_witness :
  @parseVersion spec_semver "1.2.3" = Ok (mkSemVer "1.2.3" 1 2 3) ∧
  @parseVersion spec_semver "2.0.0" = Ok (mkSemVer "2.0.0" 2 0 0) ∧
  ∃ b, @isMajorBump spec_semver "1.2.3" "2.0.0" = Ok b ∧
       (b = true ↔ (1 < 2)%N) ∧
       (2%N = 1%N → b = false) ∧
       ("1.2.3" = "2.0.0" → b = false) ∧
       ((2 < 1)%N → b = false).
Proof.
  split; [reflexivity|]. split; [reflexivity|].
  apply (@isMajorBump_iff_major_increases spec_semver "1.2.3" "2.0.0"
           (mkSemVer "1.2.3" 1 2 3) (mkSemVer "2.0.0" 2 0 0));
    reflexivity.
Defined.

(* ===================================================================== *)
(** ** Facts about the loop of analyzeManifestChanges *)
(* ===================================================================== *)

Section ManifestFacts.
Context `{Semver}.
Implicit Types (oldManifest newManifest : gmap string string).
Implicit Types (acc : gmap string (string * string)).
Implicit Types (entries : list (string * string)).

Lemma truthy_true (s : string) : truthy s = true ↔ s ≠ "".
Proof. unfold truthy. apply bool_decide_eq_true. Qed.

Lemma is_recorded_empty (newVersion : string) :
  is_recorded "" newVersion = Ok false.
Proof. reflexivity. Qed.

Lemma is_recorded_same (v : string) : is_recorded v v = Ok false.
Proof.
  unfold is_recorded. destruct (truthy v); [|done].
  by rewrite bool_decide_eq_false_2 by (intros Hne; by apply Hne).
Qed.

Lemma is_recorded_checked (oldVersion newVersion : string) :
  oldVersion ≠ "" → oldVersion ≠ newVersion →
  is_recorded oldVersion newVersion = isMajorBump oldVersion newVersion.
Proof.
  intros Hne Hdiff. unfold is_recorded, truthy.
  by rewrite !bool_decide_eq_true_2.
Qed.

(** [isMajorBump] is reached only past the two guards. *)
Lemma is_recorded_inv (oldVersion newVersion : string) (r : result bool) :
  is_recorded oldVersion newVersion = r →
  r = Ok false ∨
  (oldVersion ≠ "" ∧ oldVersion ≠ newVersion ∧
   isMajorBump oldVersion newVersion = r).
Proof.
  unfold is_recorded, truthy. intros <-.
  case_bool_decide; [|by left].
  case_bool_decide; [|by left].
  by right.
Qed.

Lemma is_recorded_true_inv (oldVersion newVersion : string) :
  is_recorded oldVersion newVersion = Ok true →
  oldVersion ≠ "" ∧ oldVersion ≠ newVersion ∧
  isMajorBump oldVersion newVersion = Ok true.
Proof. intros E. by destruct (is_recorded_inv _ _ _ E) as [?|?]. Qed.

Lemma is_recorded_Throw_inv (oldVersion newVersion : string) (e : exn) :
  is_recorded oldVersion newVersion = Throw e →
  oldVersion ≠ "" ∧ oldVersion ≠ newVersion ∧
  isMajorBump oldVersion newVersion = Throw e.
Proof. intros E. by destruct (is_recorded_inv _ _ _ E) as [?|?]. Qed.

(** Reading and assigning properties. *)
Lemma get_property_entry oldManifest (path s : string) :
  oldManifest !! path = Some s →
  get_property oldManifest path = Some (JsString s).
Proof. unfold get_property. by intros ->. Qed.

Lemma get_property_inherited oldManifest (path : string) :
  oldManifest !! path = None →
  get_property oldManifest path = JsObject <$> Object_prototype path.
Proof. unfold get_property. by intros ->. Qed.

Lemma Object_prototype_proto : Object_prototype "__proto__" = Some "[object Object]".
Proof. reflexivity. Qed.

Lemma set_property_lookup_Some {V : Type} (o : gmap string V)
    (path q : string) (v w : V) :
  set_property o path v !! q = Some w →
  o !! q = Some w ∨ (q = path ∧ w = v).
Proof.
  unfold set_property. case_bool_decide as Hp.
  - destruct (o !! path) as [u|] eqn:Ho; [|by left].
    destruct (decide (path = q)) as [<-|Hne].
    + rewrite lookup_insert_eq. intros [= <-]. by right.
    + rewrite lookup_insert_ne by done. by left.
  - destruct (decide (path = q)) as [<-|Hne].
    + rewrite lookup_insert_eq. intros [= <-]. by right.
    + rewrite lookup_insert_ne by done. by left.
Qed.

Lemma set_property_lookup_eq {V : Type} (o : gmap string V)
    (path : string) (v : V) :
  path ≠ "__proto__" → set_property o path v !! path = Some v.
Proof.
  intros Hp. unfold set_property. rewrite bool_decide_eq_false_2 by done.
  apply lookup_insert_eq.
Qed.

Lemma set_property_lookup_ne {V : Type} (o : gmap string V)
    (path q : string) (v : V) :
  path ≠ q → set_property o path v !! q = o !! q.
Proof.
  intros Hne. unfold set_property. case_bool_decide.
  - destruct (o !! path); [|done]. by rewrite lookup_insert_ne.
  - by rewrite lookup_insert_ne.
Qed.

(** An object without an entry named [__proto__] never gets one by
    assignment. *)
Lemma set_property_proto {V : Type} (o : gmap string V) (path : string) (v : V) :
  o !! "__proto__" = None → set_property o path v !! "__proto__" = None.
Proof.
  intros Ho. destruct (decide (path = "__proto__")) as [->|Hne].
  - unfold set_property. rewrite bool_decide_eq_true_2 by done. by rewrite Ho.
  - by rewrite set_property_lookup_ne.
Qed.

(** What one iteration does, by cases on what the old manifest has at the
    path. *)
Lemma visit_new_path oldManifest acc (path newVersion : string) :
  oldManifest !! path = None →
  Object_prototype path = None →
  visit oldManifest acc (path, newVersion) = Ok acc.
Proof.
  intros Ho Hp. unfold visit. by rewrite (get_property_inherited _ _ Ho), Hp.
Qed.

Lemma visit_inherited oldManifest acc (path newVersion text : string) :
  oldManifest !! path = None →
  Object_prototype path = Some text →
  visit oldManifest acc (path, newVersion) = Throw (InvalidVersionFormat text).
Proof.
  intros Ho Hp. unfold visit. by rewrite (get_property_inherited _ _ Ho), Hp.
Qed.

Lemma visit_recorded oldManifest acc (path oldVersion newVersion : string)
    (r : result bool) :
  oldManifest !! path = Some oldVersion →
  is_recorded oldVersion newVersion = r →
  visit oldManifest acc (path, newVersion) =
    let* recorded := r in
    Ok (if recorded : bool
        then set_property acc path (oldVersion, newVersion) else acc).
Proof.
  intros Ho <-. unfold visit. by rewrite (get_property_entry _ _ _ Ho).
Qed.

Lemma visit_Ok_inv oldManifest acc acc' (path newVersion : string) :
  visit oldManifest acc (path, newVersion) = Ok acc' →
  acc' = acc ∨
  ∃ oldVersion, oldManifest !! path = Some oldVersion ∧
                is_recorded oldVersion newVersion = Ok true ∧
                acc' = set_property acc path (oldVersion, newVersion).
Proof.
  unfold visit, get_property. destruct (oldManifest !! path) as [oldVersion|].
  - destruct (is_recorded oldVersion newVersion) as [[]|] eqn:E; cbn;
      intros [= <-]; eauto.
  - destruct (Object_prototype path); cbn; [discriminate|].
    intros [= <-]. by left.
Qed.

(** An iteration throws in two ways: [isMajorBump] throws on the two
    strings, past both guards; or the path names a member of
    [Object.prototype] that the old manifest does not shadow. *)
Lemma visit_Throw_inv oldManifest acc (path newVersion : string) (e : exn) :
  visit oldManifest acc (path, newVersion) = Throw e →
  (∃ oldVersion, oldManifest !! path = Some oldVersion ∧
                 oldVersion ≠ "" ∧ oldVersion ≠ newVersion ∧
                 isMajorBump oldVersion newVersion = Throw e) ∨
  (oldManifest !! path = None ∧
   ∃ text, Object_prototype path = Some text ∧ e = InvalidVersionFormat text).
Proof.
  unfold visit, get_property.
  destruct (oldManifest !! path) as [oldVersion|] eqn:Ho.
  - destruct (is_recorded oldVersion newVersion) as [b|e'] eqn:E; cbn;
      intros [= <-].
    apply is_recorded_Throw_inv in E. left. eauto.
  - destruct (Object_prototype path) as [text|]; cbn; [|discriminate].
    intros [= <-]. right. eauto.
Qed.

(** Whether an iteration throws, and what, does not depend on what has
    been recorded so far. *)
Lemma visit_Throw_any oldManifest acc acc' (entry : string * string) (e : exn) :
  visit oldManifest acc entry = Throw e →
  visit oldManifest acc' entry = Throw e.
Proof.
  destruct entry as [path newVersion]. unfold visit.
  destruct (get_property oldManifest path) as [[oldVersion|text]|]; [|done..].
  by destruct (is_recorded oldVersion newVersion) as [b|e'].
Qed.

(** A [throw] that leaves the loop is the [throw] of the iteration at an
    entry of the list. *)
Lemma for_of_Throw_inv oldManifest entries acc (e : exn) :
  for_of oldManifest entries acc = Throw e →
  ∃ path newVersion,
    (path, newVersion) ∈ entries ∧
    ∀ acc', visit oldManifest acc' (path, newVersion) = Throw e.
Proof.
  revert acc. induction entries as [|[path newVersion] rest IH];
    intros acc; cbn [for_of]; [done|].
  destruct (visit oldManifest acc (path, newVersion)) as [acc1|e1] eqn:Ev;
    cbn.
  - intros E. destruct (IH _ E) as (p & n & Hin & Hrest).
    exists p, n. split; [by right|done].
  - intros [= <-]. exists path, newVersion. split; [by left|].
    intros acc'. exact (visit_Throw_any _ acc acc' _ _ Ev).
Qed.

(** The loop does not survive an entry whose iteration throws. *)
Lemma for_of_throws oldManifest entries acc acc0
    (path newVersion : string) (e : exn) :
  (path, newVersion) ∈ entries →
  visit oldManifest acc0 (path, newVersion) = Throw e →
  ∃ e', for_of oldManifest entries acc = Throw e'.
Proof.
  intros Hin Hv. revert acc.
  induction entries as [|[p n] rest IH]; intros acc.
  - by apply elem_of_nil in Hin.
  - cbn [for_of]. apply elem_of_cons in Hin as [[= <- <-]|Hin].
    + rewrite (visit_Throw_any _ _ acc _ _ Hv). cbn. eauto.
    + destruct (visit oldManifest acc (p, n)) as [acc1|e1]; cbn; eauto.
Qed.

(** The loop returns when no iteration throws. *)
Lemma for_of_returns oldManifest entries acc :
  (∀ path newVersion acc0 e,
     (path, newVersion) ∈ entries →
     visit oldManifest acc0 (path, newVersion) ≠ Throw e) →
  ∃ acc', for_of oldManifest entries acc = Ok acc'.
Proof.
  revert acc. induction entries as [|[p n] rest IH]; intros acc Hall;
    cbn [for_of]; [eauto|].
  destruct (visit oldManifest acc (p, n)) as [acc1|e] eqn:Ev.
  - cbn. apply IH. intros path n' acc0 e Hin. apply Hall. by right.
  - destruct (Hall p n acc e); [by left|done].
Qed.

(** Every pair in the result was already there or was recorded at an
    entry of the list. *)
Lemma for_of_sound oldManifest entries acc acc'
    (path : string) (pair : string * string) :
  for_of oldManifest entries acc = Ok acc' →
  acc' !! path = Some pair →
  acc !! path = Some pair ∨
  ∃ oldVersion newVersion,
    (path, newVersion) ∈ entries ∧
    oldManifest !! path = Some oldVersion ∧
    is_recorded oldVersion newVersion = Ok true ∧
    pair = (oldVersion, newVersion).
Proof.
  revert acc. induction entries as [|[p n] rest IH]; intros acc;
    cbn [for_of].
  - intros [= <-]. by left.
  - destruct (visit oldManifest acc (p, n)) as [acc1|e1] eqn:Ev; cbn;
      [|discriminate].
    intros E Hl. destruct (IH _ E Hl) as [Hacc1|(o & n' & Hin & Hrest)].
    + destruct (visit_Ok_inv _ _ _ _ _ Ev) as [->|(o & Ho & Hr & ->)];
        [by left|].
      apply set_property_lookup_Some in Hacc1 as [Hacc|[-> ->]]; [by left|].
      right. exists o, n. split; [by left|done].
    + right. exists o, n'. split; [by right|done].
Qed.

(** The loop leaves alone the paths it does not visit. *)
Lemma for_of_untouched oldManifest entries acc acc' (path : string) :
  path ∉ entries.*1 →
  for_of oldManifest entries acc = Ok acc' →
  acc' !! path = acc !! path.
Proof.
  revert acc. induction entries as [|[p n] rest IH]; intros acc Hnot;
    cbn [for_of].
  - by intros [= <-].
  - destruct (visit oldManifest acc (p, n)) as [acc1|e1] eqn:Ev; cbn;
      [|discriminate].
    rewrite fmap_cons in Hnot. apply not_elem_of_cons in Hnot as [Hne Hnot].
    intros E. rewrite (IH _ Hnot E).
    destruct (visit_Ok_inv _ _ _ _ _ Ev) as [->|(o & Ho & Hr & ->)];
      [done|].
    by rewrite set_property_lookup_ne.
Qed.

(** The result has no entry named [__proto__] unless it had one before. *)
Lemma for_of_proto oldManifest entries acc acc' :
  acc !! "__proto__" = None →
  for_of oldManifest entries acc = Ok acc' →
  acc' !! "__proto__" = None.
Proof.
  revert acc. induction entries as [|[p n] rest IH]; intros acc Hacc;
    cbn [for_of].
  - by intros [= <-].
  - destruct (visit oldManifest acc (p, n)) as [acc1|e1] eqn:Ev; cbn;
      [|discriminate].
    apply IH.
    destruct (visit_Ok_inv _ _ _ _ _ Ev) as [->|(o & Ho & Hr & ->)];
      [done|].
    by apply set_property_proto.
Qed.

(** With distinct keys, as the entries of an object have, what an
    iteration records at a path other than [__proto__] is still there at
    the end. *)
Lemma for_of_complete oldManifest entries acc acc'
    (path oldVersion newVersion : string) :
  NoDup entries.*1 →
  for_of oldManifest entries acc = Ok acc' →
  (path, newVersion) ∈ entries →
  oldManifest !! path = Some oldVersion →
  is_recorded oldVersion newVersion = Ok true →
  path ≠ "__proto__" →
  acc' !! path = Some (oldVersion, newVersion).
Proof.
  intros Hnd E Hin Ho Hr Hproto. revert acc Hnd E.
  induction entries as [|[p n] rest IH]; intros acc Hnd; cbn [for_of].
  - by apply elem_of_nil in Hin.
  - rewrite fmap_cons in Hnd. apply NoDup_cons in Hnd as [Hfresh Hnd].
    cbn [fst] in Hfresh.
    apply elem_of_cons in Hin as [[= <- <-]|Hin].
    + rewrite (visit_recorded _ _ _ _ _ _ Ho Hr). cbn. intros E.
      rewrite (for_of_untouched _ _ _ _ _ Hfresh E).
      by apply set_property_lookup_eq.
    + destruct (visit oldManifest acc (p, n)) as [acc1|e1]; cbn;
        [|discriminate].
      by apply IH.
Qed.

(** X11.  The order in which the entries are enumerated does not change
    what a loop that returns has recorded, nor whether the loop returns
    (for entries with distinct keys, as those of an object are). *)
Lemma for_of_permutation oldManifest entries1 entries2 acc1 :
  entries1 ≡ₚ entries2 →
  NoDup entries1.*1 →
  for_of oldManifest entries1 ∅ = Ok acc1 →
  for_of oldManifest entries2 ∅ = Ok acc1.
Proof.
  intros Hperm Hnd1 E1.
  assert (NoDup entries2.*1) as Hnd2 by (by rewrite <- Hperm).
  destruct (for_of oldManifest entries2 ∅) as [acc2|e] eqn:E2.
  - f_equal. apply map_eq. intros q.
    assert (∀ ea eb acca accb (pair : string * string),
              ea ≡ₚ eb → NoDup eb.*1 →
              for_of oldManifest ea ∅ = Ok acca →
              for_of oldManifest eb ∅ = Ok accb →
              acca !! q = Some pair → accb !! q = Some pair) as Hmove.
    { intros ea eb acca accb pair Hp Hnd Ea Eb Hl.
      assert (q ≠ "__proto__") as Hq.
      { intros ->.
        rewrite (for_of_proto _ _ _ _ (lookup_empty _) Ea) in Hl.
        discriminate. }
      destruct (for_of_sound _ _ _ _ _ _ Ea Hl)
        as [Hempty|(o & n & Hin & Ho & Hr & ->)].
      - by rewrite lookup_empty in Hempty.
      - rewrite Hp in Hin. eapply for_of_complete; eauto. }
    destruct (acc2 !! q) as [pair|] eqn:H2.
    + symmetry. symmetry in Hperm. by eapply (Hmove entries2 entries1).
    + destruct (acc1 !! q) as [pair|] eqn:H1; [|done].
      rewrite (Hmove entries1 entries2 _ _ pair Hperm Hnd2 E1 E2 H1) in H2.
      done.
  - destruct (for_of_Throw_inv _ _ _ _ E2) as (p & n & Hin & Hv).
    rewrite <- Hperm in Hin.
    destruct (for_of_throws oldManifest _ ∅ ∅ _ _ _ Hin (Hv ∅)) as [e' E'].
    congruence.
Qed.
End ManifestFacts.

(* ===================================================================== *)
(** ** Facts about analyzeManifestChanges on two present snapshots *)
(* ===================================================================== *)

Section AnalysisFacts.
Context `{Semver}.
Implicit Types (oldManifest newManifest : gmap string string).

Lemma analyze_Ok_inv oldManifest newManifest (r : ManifestAnalysis) :
  analyzeManifestChanges (Some oldManifest) (Some newManifest) = Ok r →
  for_of oldManifest (map_to_list newManifest) ∅ = Ok (majorBumps r) ∧
  hasMajorBump r = (0 <? length (Object_keys (majorBumps r)))%nat.
Proof.
  unfold analyzeManifestChanges, Object_entries.
  destruct (for_of oldManifest (map_to_list newManifest) ∅) as [mb|e];
    cbn; [|discriminate].
  by intros [= <-].
Qed.

Lemma analyze_Throw_inv oldManifest newManifest (e : exn) :
  analyzeManifestChanges (Some oldManifest) (Some newManifest) = Throw e →
  for_of oldManifest (map_to_list newManifest) ∅ = Throw e.
Proof.
  unfold analyzeManifestChanges, Object_entries.
  destruct (for_of oldManifest (map_to_list newManifest) ∅) as [mb|e'];
    cbn; [discriminate|]. by intros [= <-].
Qed.

(** The pair recorded for a path is decided by the two snapshots' entries
    at that path alone; nothing is recorded at [__proto__]. *)
Lemma analyze_lookup oldManifest newManifest (r : ManifestAnalysis)
    (path oldVersion newVersion : string) :
  analyzeManifestChanges (Some oldManifest) (Some newManifest) = Ok r →
  majorBumps r !! path = Some (oldVersion, newVersion) ↔
  path ≠ "__proto__" ∧
  oldManifest !! path = Some oldVersion ∧
  newManifest !! path = Some newVersion ∧
  is_recorded oldVersion newVersion = Ok true.
Proof.
  intros E. apply analyze_Ok_inv in E as [E _]. split.
  - intros Hl. split.
    { intros ->. rewrite (for_of_proto _ _ _ _ (lookup_empty _) E) in Hl.
      discriminate. }
    destruct (for_of_sound _ _ _ _ _ _ E Hl)
      as [Hempty|(o & n & Hin & Ho & Hr & [= -> ->])].
    + by rewrite lookup_empty in Hempty.
    + by apply elem_of_map_to_list in Hin.
  - intros (Hproto & Ho & Hn & Hr).
    eapply for_of_complete; eauto.
    + apply NoDup_fst_map_to_list.
    + by apply elem_of_map_to_list.
Qed.

(** A failure of the analysis is the failure of the iteration at an
    entry of the new snapshot. *)
Lemma analyze_Throw_visit oldManifest newManifest (e : exn) :
  analyzeManifestChanges (Some oldManifest) (Some newManifest) = Throw e →
  ∃ path newVersion,
    newManifest !! path = Some newVersion ∧
    ∀ acc, visit oldManifest acc (path, newVersion) = Throw e.
Proof.
  intros E. apply analyze_Throw_inv, for_of_Throw_inv in E
    as (p & n & Hin & Hv).
  apply elem_of_map_to_list in Hin. by exists p, n.
Qed.

(** That iteration fails in one of two ways: [isMajorBump] throws on the
    two strings of a path of the overlap, the old one non-empty and
    different from the new one; or the path, which the old snapshot does
    not have, names a member of [Object.prototype]. *)
Lemma analyze_Throw_at oldManifest newManifest (e : exn) :
  analyzeManifestChanges (Some oldManifest) (Some newManifest) = Throw e →
  ∃ path newVersion,
    newManifest !! path = Some newVersion ∧
    ((∃ oldVersion,
        oldManifest !! path = Some oldVersion ∧
        oldVersion ≠ "" ∧ oldVersion ≠ newVersion ∧
        isMajorBump oldVersion newVersion = Throw e) ∨
     (oldManifest !! path = None ∧
      ∃ text, Object_prototype path = Some text ∧
              e = InvalidVersionFormat text)).
Proof.
  intros E. destruct (analyze_Throw_visit _ _ _ E) as (p & n & Hn & Hv).
  exists p, n. split; [done|]. exact (visit_Throw_inv _ ∅ _ _ _ (Hv ∅)).
Qed.

Lemma analyze_throws oldManifest newManifest
    (path newVersion : string) (acc : gmap string (string * string)) (e : exn) :
  newManifest !! path = Some newVersion →
  visit oldManifest acc (path, newVersion) = Throw e →
  ∃ e', analyzeManifestChanges (Some oldManifest) (Some newManifest) = Throw e'.
Proof.
  intros Hn Hv. apply elem_of_map_to_list in Hn.
  destruct (for_of_throws oldManifest _ ∅ _ _ _ _ Hn Hv) as [e' Ef].
  exists e'. unfold analyzeManifestChanges, Object_entries. by rewrite Ef.
Qed.

Lemma hasMajorBump_nonempty (mb : gmap string (string * string)) :
  (0 <? length (Object_keys mb))%nat = true ↔ mb ≠ ∅.
Proof.
  unfold Object_keys. rewrite length_fmap, <- (map_to_list_empty_iff mb).
  destruct (map_to_list mb); cbn; split; try done.
Qed.
End AnalysisFacts.

(** C2 (as amended).  For two present snapshots, if some path of the
    overlap has a non-empty old string that differs from the new string,
    and [semver.parse] rejects one of the two strings, the analysis
    throws [InvalidVersionFormat] and returns no result: the exception is
    the one thrown in the iteration of an entry of the new snapshot,
    unchanged.  (An entry whose old string is empty or equal to the new
    string is not parsed at all.) *)
Theorem analyze_fails_fast `{Semver}
    (oldManifest newManifest : gmap string string)
    (path oldVersion newVersion : string) :
  oldManifest !! path = Some oldVersion →
  newManifest !! path = Some newVersion →
  oldVersion ≠ "" →
  oldVersion ≠ newVersion →
  semver_parse oldVersion = None ∨ semver_parse newVersion = None →
  ∃ path' new' culprit,
    newManifest !! path' = Some new' ∧
    (∀ acc, visit oldManifest acc (path', new')
            = Throw (Error ("Invalid version format: " +:+ culprit))) ∧
    analyzeManifestChanges (Some oldManifest) (Some newManifest)
      = Throw (Error ("Invalid version format: " +:+ culprit)).
Proof.
  intros Ho Hn Hne Hdiff Hbad.
  destruct (isMajorBump_unparsable _ _ Hbad) as (bad0 & _ & _ & Eb).
  rewrite <- (is_recorded_checked _ _ Hne Hdiff) in Eb.
  pose proof (visit_recorded oldManifest ∅ _ _ _ _ Ho Eb) as Hv. cbn in Hv.
  destruct (analyze_throws _ _ _ _ _ _ Hn Hv) as [e' Ea].
  destruct (analyze_Throw_visit _ _ _ Ea) as (p' & n' & Hn' & Hv').
  assert (∃ culprit, e' = Error ("Invalid version format: " +:+ culprit))
    as [culprit ->].
  { destruct (visit_Throw_inv _ _ _ _ _ (Hv' ∅))
      as [(o' & _ & _ & _ & Eb')|(_ & text & _ & ->)]; [|by eexists].
    destruct (isMajorBump_Throw_inv _ _ _ Eb') as [Ep|[_ Ep]];
      apply parseVersion_Throw in Ep as [_ ->]; by eexists. }
  exists p', n', culprit. done.
Qed.

Lemma analyze_fails_fast_witness :
  ∃ path' new' culprit,
    ({[ "." := "2.0" ]} : gmap string string) !! path' = Some new' ∧
    (∀ acc, @visit spec_semver {[ "." := "1.2.3" ]} acc (path', new')
            = Throw (Error ("Invalid version format: " +:+ culprit))) ∧
    @analyzeManifestChanges spec_semver
      (Some {[ "." := "1.2.3" ]}) (Some {[ "." := "2.0" ]})
      = Throw (Error ("Invalid version format: " +:+ culprit)).
Proof.
  apply (@analyze_fails_fast spec_semver
           {[ "." := "1.2.3" ]} {[ "." := "2.0" ]} "." "1.2.3" "2.0");
    [reflexivity | reflexivity | discriminate | discriminate
    | right; reflexivity].
Defined.

(** C2 as stated fails: a malformed string in the overlap does not stop
    the analysis when the old and the new string are identical, or when
    the old string is empty; both runs return a result. *)
Lemma malformed_overlap_entry_skipped :
  @parseVersion spec_semver "1.2" = Throw (InvalidVersionFormat "1.2") ∧
  @analyzeManifestChanges spec_semver
    (Some {[ "." := "1.2" ]}) (Some {[ "." := "1.2" ]})
    = Ok {| hasMajorBump := false ; majorBumps := ∅ |} ∧
  @parseVersion spec_semver "" = Throw (InvalidVersionFormat "") ∧
  @analyzeManifestChanges spec_semver
    (Some {[ "." := "" ]}) (Some {[ "." := "2.0.0" ]})
    = Ok {| hasMajorBump := false ; majorBumps := ∅ |}.
Proof. repeat split; vm_compute; reflexivity. Qed.

(** C4.  When the old or the new snapshot is absent, the analysis returns
    [{hasMajorBump: false, majorBumps: {}}] and throws nothing, whatever
    the other snapshot holds. *)
Theorem analyze_absent_snapshot `{Semver}
    (other : option (gmap string string)) :
  analyzeManifestChanges None other
    = Ok {| hasMajorBump := false ; majorBumps := ∅ |} ∧
  analyzeManifestChanges other None
    = Ok {| hasMajorBump := false ; majorBumps := ∅ |}.
Proof. by destruct other. Qed.

(** C5 fails on the code.  A new package whose path is the name of a
    member of [Object.prototype] is not skipped: the old manifest, which
    has no entry of that name, answers with the member it inherits, and
    the analysis throws, whatever [semver.parse] accepts. *)
Theorem new_package_named_toString_throws `{Semver} :
  ({[ "." := "1.0.0" ]} : gmap string string) !! "toString" = None ∧
  analyzeManifestChanges
    (Some {[ "." := "1.0.0" ]})
    (Some {[ "." := "1.0.0" ; "toString" := "2.0.0" ]})
  = Throw (Error "Invalid version format: function toString() { [native code] }").
Proof. split; vm_compute; reflexivity. Qed.

(** X23.  A path of the new snapshot that the old snapshot does not have
    and that is not the name of a member of [Object.prototype] is
    skipped whatever version it carries: its iteration returns and leaves
    [majorBumps] as it was, the path is not in the returned [majorBumps],
    and a failure of the analysis is always the failure of the iteration
    at another path of the new snapshot. *)
Theorem analyze_skips_new_package `{Semver}
    (oldManifest newManifest : gmap string string)
    (path newVersion : string) :
  newManifest !! path = Some newVersion →
  oldManifest !! path = None →
  Object_prototype path = None →
  (∀ acc, visit oldManifest acc (path, newVersion) = Ok acc) ∧
  (∀ r, analyzeManifestChanges (Some oldManifest) (Some newManifest) = Ok r →
        majorBumps r !! path = None) ∧
  (∀ e, analyzeManifestChanges (Some oldManifest) (Some newManifest) = Throw e →
        ∃ path' new',
          path' ≠ path ∧
          newManifest !! path' = Some new' ∧
          ∀ acc, visit oldManifest acc (path', new') = Throw e).
Proof.
  intros Hn Ho Hp. split; [|split].
  - intros acc. by apply visit_new_path.
  - intros r E. destruct (majorBumps r !! path) as [[o n]|] eqn:Hl; [|done].
    apply (analyze_lookup _ _ _ _ _ _ E) in Hl as (_ & Ho' & _). congruence.
  - intros e E.
    destruct (analyze_Throw_visit _ _ _ E) as (p & n & Hn' & Hv).
    exists p, n. split; [|done]. intros ->.
    rewrite Hn in Hn'. injection Hn' as <-.
    specialize (Hv ∅). rewrite (visit_new_path _ _ _ _ Ho Hp) in Hv.
    discriminate.
Qed.

Lemma analyze_skips_new_package_witness :
  ({[ "." := "1.0.0" ; "packages/new" := "2.0.0" ]} : gmap string string)
    !! "packages/new" = Some "2.0.0" ∧
  ({[ "." := "1.0.0" ]} : gmap string string) !! "packages/new" = None ∧
  Object_prototype "packages/new" = None ∧
  (∀ acc, @visit spec_semver {[ "." := "1.0.0" ]} acc
            ("packages/new", "2.0.0") = Ok acc) ∧
  (∀ r, @analyzeManifestChanges spec_semver
          (Some {[ "." := "1.0.0" ]})
          (Some {[ "." := "1.0.0" ; "packages/new" := "2.0.0" ]}) = Ok r →
        majorBumps r !! "packages/new" = None) ∧
  (∀ e, @analyzeManifestChanges spec_semver
          (Some {[ "." := "1.0.0" ]})
          (Some {[ "." := "1.0.0" ; "packages/new" := "2.0.0" ]}) = Throw e →
        ∃ path' new',
          path' ≠ "packages/new" ∧
          ({[ "." := "1.0.0" ; "packages/new" := "2.0.0" ]}
             : gmap string string) !! path' = Some new' ∧
          ∀ acc, @visit spec_semver {[ "." := "1.0.0" ]} acc (path', new')
                 = Throw e).
Proof.
  split; [reflexivity|]. split; [reflexivity|]. split; [reflexivity|].
  apply (@analyze_skips_new_package spec_semver
           {[ "." := "1.0.0" ]}
           {[ "." := "1.0.0" ; "packages/new" := "2.0.0" ]}
           "packages/new" "2.0.0"); reflexivity.
Defined.

(** C6.  After a successful analysis of two present snapshots, every
    entry [path ↦ (old, new)] of [majorBumps] has [path] in both
    snapshots, with [old] the old snapshot's string and [new] the new
    snapshot's string there; the two strings differ, both parse, and the
    major of [new] is strictly greater than the major of [old]. *)
Theorem majorBumps_entries_are_major_bumps `{Semver}
    (oldManifest newManifest : gmap string string) (r : ManifestAnalysis)
    (path old new : string) :
  analyzeManifestChanges (Some oldManifest) (Some newManifest) = Ok r →
  majorBumps r !! path = Some (old, new) →
  oldManifest !! path = Some old ∧
  newManifest !! path = Some new ∧
  old ≠ new ∧
  ∃ vo vn, parseVersion old = Ok vo ∧
           parseVersion new = Ok vn ∧
           (major vo < major vn)%N.
Proof.
  intros E Hl.
  apply (analyze_lookup _ _ _ _ _ _ E) in Hl as (_ & Ho & Hn & Hr).
  apply is_recorded_true_inv in Hr as (_ & Hdiff & Eb).
  apply isMajorBump_Ok_inv in Eb as (vo & vn & Eo & En & Hlt).
  repeat split; try done.
  exists vo, vn. repeat split; try done. by apply N.ltb_lt.
Qed.

Lemma majorBumps_entries_are_major_bumps_witness :
  @analyzeManifestChanges spec_semver
    (Some {[ "." := "1.2.3" ]}) (Some {[ "." := "2.0.0" ]})
    = Ok {| hasMajorBump := true ;
            majorBumps := {[ "." := ("1.2.3", "2.0.0") ]} |} ∧
  ({[ "." := "1.2.3" ]} : gmap string string) !! "." = Some "1.2.3" ∧
  ({[ "." := "2.0.0" ]} : gmap string string) !! "." = Some "2.0.0" ∧
  "1.2.3" ≠ "2.0.0" ∧
  ∃ vo vn, @parseVersion spec_semver "1.2.3" = Ok vo ∧
           @parseVersion spec_semver "2.0.0" = Ok vn ∧
           (major vo < major vn)%N.
Proof.
  split; [vm_compute; reflexivity|].
  apply (@majorBumps_entries_are_major_bumps spec_semver
           {[ "." := "1.2.3" ]} {[ "." := "2.0.0" ]}
           {| hasMajorBump := true ;
              majorBumps := {[ "." := ("1.2.3", "2.0.0") ]} |}
           "." "1.2.3" "2.0.0");
    vm_compute; reflexivity.
Defined.

(** C7.  Whatever the two inputs, absent or present, a returned result
    has [hasMajorBump = true] exactly when [majorBumps] is not empty. *)
Theorem hasMajorBump_iff_nonempty `{Semver}
    (oldManifest newManifest : option (gmap string string))
    (r : ManifestAnalysis) :
  analyzeManifestChanges oldManifest newManifest = Ok r →
  hasMajorBump r = true ↔ majorBumps r ≠ ∅.
Proof.
  destruct oldManifest as [old|], newManifest as [new|];
    try (intros [= <-]; cbn; split; done).
  intros E. apply analyze_Ok_inv in E as [_ ->].
  apply hasMajorBump_nonempty.
Qed.

Lemma hasMajorBump_iff_nonempty_witness :
  @analyzeManifestChanges spec_semver
    (Some {[ "packages/foo" := "1.2.3" ; "packages/bar" := "2.5.0" ]})
    (Some {[ "packages/foo" := "2.0.0" ; "packages/bar" := "2.1.0" ]})
    = Ok {| hasMajorBump := true ;
            majorBumps := {[ "packages/foo" := ("1.2.3", "2.0.0") ]} |} ∧
  (true = true ↔
   ({[ "packages/foo" := ("1.2.3", "2.0.0") ]}
      : gmap string (string * string)) ≠ ∅).
Proof.
  split; [vm_compute; reflexivity|].
  refine (@hasMajorBump_iff_nonempty spec_semver
            (Some {[ "packages/foo" := "1.2.3" ; "packages/bar" := "2.5.0" ]})
            (Some {[ "packages/foo" := "2.0.0" ; "packages/bar" := "2.1.0" ]})
            {| hasMajorBump := true ;
               majorBumps := {[ "packages/foo" := ("1.2.3", "2.0.0") ]} |} _).
  vm_compute. reflexivity.
Defined.

(** C9 (as amended).  Key independence of the runs that return: when two
    pairs of present snapshots agree on the entry (or its absence) of a
    path in the old and in the new snapshot, and the analysis returns on
    both pairs, the two returned [majorBumps] agree at that path: it is
    in both or in neither, with the same pair. *)
Theorem analyze_key_independent `{Semver}
    (old1 new1 old2 new2 : gmap string string) (r1 r2 : ManifestAnalysis)
    (path : string) :
  old1 !! path = old2 !! path →
  new1 !! path = new2 !! path →
  analyzeManifestChanges (Some old1) (Some new1) = Ok r1 →
  analyzeManifestChanges (Some old2) (Some new2) = Ok r2 →
  majorBumps r1 !! path = majorBumps r2 !! path.
Proof.
  intros Hold Hnew E1 E2.
  destruct (majorBumps r1 !! path) as [[o n]|] eqn:H1.
  - apply (analyze_lookup _ _ _ _ _ _ E1) in H1 as (Hp & Ho & Hn & Hr).
    symmetry. apply (analyze_lookup _ _ _ _ _ _ E2).
    rewrite <- Hold, <- Hnew. done.
  - destruct (majorBumps r2 !! path) as [[o n]|] eqn:H2; [|done].
    apply (analyze_lookup _ _ _ _ _ _ E2) in H2 as (Hp & Ho & Hn & Hr).
    rewrite <- Hold in Ho. rewrite <- Hnew in Hn.
    assert (majorBumps r1 !! path = Some (o, n)) as H1'
      by (by apply (analyze_lookup _ _ _ _ _ _ E1)).
    congruence.
Qed.

Lemma analyze_key_independent_witness :
  @analyzeManifestChanges spec_semver
    (Some {[ "packages/foo" := "1.2.3" ; "packages/bar" := "2.5.0" ]})
    (Some {[ "packages/foo" := "2.0.0" ; "packages/bar" := "2.1.0" ]})
    = Ok {| hasMajorBump := true ;
            majorBumps := {[ "packages/foo" := ("1.2.3", "2.0.0") ]} |} ∧
  @analyzeManifestChanges spec_semver
    (Some {[ "packages/foo" := "1.2.3" ; "packages/bar" := "2.5.0" ]})
    (Some {[ "packages/foo" := "2.0.0" ; "packages/bar" := "3.0.0" ;
             "packages/new" := "7.0.0" ]})
    = Ok {| hasMajorBump := true ;
            majorBumps := {[ "packages/foo" := ("1.2.3", "2.0.0") ;
                             "packages/bar" := ("2.5.0", "3.0.0") ]} |} ∧
  ({[ "packages/foo" := ("1.2.3", "2.0.0") ]}
     : gmap string (string * string)) !! "packages/foo"
  = ({[ "packages/foo" := ("1.2.3", "2.0.0") ;
        "packages/bar" := ("2.5.0", "3.0.0") ]}
       : gmap string (string * string)) !! "packages/foo".
Proof.
  split; [vm_compute; reflexivity|]. split; [vm_compute; reflexivity|].
  refine (@analyze_key_independent spec_semver
           {[ "packages/foo" := "1.2.3" ; "packages/bar" := "2.5.0" ]}
           {[ "packages/foo" := "2.0.0" ; "packages/bar" := "2.1.0" ]}
           {[ "packages/foo" := "1.2.3" ; "packages/bar" := "2.5.0" ]}
           {[ "packages/foo" := "2.0.0" ; "packages/bar" := "3.0.0" ;
              "packages/new" := "7.0.0" ]}
           {| hasMajorBump := true ;
              majorBumps := {[ "packages/foo" := ("1.2.3", "2.0.0") ]} |}
           {| hasMajorBump := true ;
              majorBumps := {[ "packages/foo" := ("1.2.3", "2.0.0") ;
                               "packages/bar" := ("2.5.0", "3.0.0") ]} |}
           "packages/foo" _ _ _ _);
    vm_compute; reflexivity.
Defined.

(** C9 as stated fails: two pairs of present snapshots agree at
    [packages/p], the first run returns and reports [packages/p], and the
    second run, whose snapshots also hold a changed, malformed entry at
    [packages/q], throws and reports nothing. *)
Lemma outcome_depends_on_another_path :
  ({[ "packages/p" := "1.0.0" ]} : gmap string string) !! "packages/p"
  = ({[ "packages/p" := "1.0.0" ; "packages/q" := "1.0.0" ]}
       : gmap string string) !! "packages/p" ∧
  ({[ "packages/p" := "2.0.0" ]} : gmap string string) !! "packages/p"
  = ({[ "packages/p" := "2.0.0" ; "packages/q" := "1.2.x" ]}
       : gmap string string) !! "packages/p" ∧
  @analyzeManifestChanges spec_semver
    (Some {[ "packages/p" := "1.0.0" ]})
    (Some {[ "packages/p" := "2.0.0" ]})
  = Ok {| hasMajorBump := true ;
          majorBumps := {[ "packages/p" := ("1.0.0", "2.0.0") ]} |} ∧
  @analyzeManifestChanges spec_semver
    (Some {[ "packages/p" := "1.0.0" ; "packages/q" := "1.0.0" ]})
    (Some {[ "packages/p" := "2.0.0" ; "packages/q" := "1.2.x" ]})
  = Throw (Error "Invalid version format: 1.2.x").
Proof. repeat split; vm_compute; reflexivity. Qed.

(** C10.  A path that the old snapshot maps to the empty string is
    skipped whatever the new snapshot holds there: its iteration returns
    and leaves [majorBumps] as it was, the path is not in the returned
    [majorBumps], and a failure of the analysis is always the failure of
    the iteration at another path of the new snapshot. *)
Theorem analyze_skips_empty_old_version `{Semver}
    (oldManifest newManifest : gmap string string) (path : string) :
  oldManifest !! path = Some "" →
  (∀ acc newVersion, visit oldManifest acc (path, newVersion) = Ok acc) ∧
  (∀ r, analyzeManifestChanges (Some oldManifest) (Some newManifest) = Ok r →
        majorBumps r !! path = None) ∧
  (∀ e, analyzeManifestChanges (Some oldManifest) (Some newManifest) = Throw e →
        ∃ path' new',
          path' ≠ path ∧
          newManifest !! path' = Some new' ∧
          ∀ acc, visit oldManifest acc (path', new') = Throw e).
Proof.
  intros Ho.
  assert (∀ acc newVersion, visit oldManifest acc (path, newVersion) = Ok acc)
    as Hskip.
  { intros acc n.
    by rewrite (visit_recorded _ _ _ _ _ _ Ho (is_recorded_empty n)). }
  split; [done|split].
  - intros r E. destruct (majorBumps r !! path) as [[o n]|] eqn:Hl; [|done].
    apply (analyze_lookup _ _ _ _ _ _ E) in Hl as (_ & Ho' & _ & Hr).
    rewrite Ho in Ho'. injection Ho' as <-. discriminate Hr.
  - intros e E.
    destruct (analyze_Throw_visit _ _ _ E) as (p & n & Hn & Hv).
    exists p, n. split; [|done]. intros ->.
    specialize (Hv ∅). rewrite Hskip in Hv. discriminate.
Qed.

Lemma analyze_skips_empty_old_version_witness :
  ({[ "." := "" ]} : gmap string string) !! "." = Some "" ∧
  (∀ acc newVersion,
     @visit spec_semver {[ "." := "" ]} acc (".", newVersion) = Ok acc) ∧
  (∀ r, @analyzeManifestChanges spec_semver
          (Some {[ "." := "" ]}) (Some {[ "." := "999.0.0" ]}) = Ok r →
        majorBumps r !! "." = None) ∧
  (∀ e, @analyzeManifestChanges spec_semver
          (Some {[ "." := "" ]}) (Some {[ "." := "999.0.0" ]}) = Throw e →
        ∃ path' new',
          path' ≠ "." ∧
          ({[ "." := "999.0.0" ]} : gmap string string) !! path' = Some new' ∧
          ∀ acc, @visit spec_semver {[ "." := "" ]} acc (path', new')
                 = Throw e).
Proof.
  split; [reflexivity|].
  apply (@analyze_skips_empty_old_version spec_semver
           {[ "." := "" ]} {[ "." := "999.0.0" ]} "."); reflexivity.
Defined.

(* ===================================================================== *)
(** ** The spec's version grammar: the parser against the pattern *)
(* ===================================================================== *)

Section Grammar.
Implicit Types (s ds r text : string) (c : ascii).

Lemma append_nil_l s : "" +:+ s = s.
Proof. reflexivity. Qed.

Lemma append_cons c s r : String c s +:+ r = String c (s +:+ r).
Proof. reflexivity. Qed.

Lemma append_nil_r s : s +:+ "" = s.
Proof. induction s as [|c s IH]; [done|]. by rewrite append_cons, IH. Qed.

Lemma span_digits_spec s :
  s = (span_digits s).1 +:+ (span_digits s).2 ∧
  all_digits (span_digits s).1 = true ∧
  stops (span_digits s).2.
Proof.
  induction s as [|c s (IHapp & IHdig & IHstop)]; simpl; [done|].
  destruct (is_digit c) eqn:Hc; [|by simpl].
  destruct (span_digits s) as [ds r]; simpl in *.
  rewrite Hc, IHdig. repeat split; [|done].
  by rewrite IHapp at 1.
Qed.

Lemma span_digits_app ds r :
  all_digits ds = true → stops r → span_digits (ds +:+ r) = (ds, r).
Proof.
  intros Hds Hr. induction ds as [|c ds IH]; simpl in *.
  - destruct r as [|c r]; [done|]. simpl in *. by rewrite Hr.
  - apply andb_true_iff in Hds as [-> Hds]. by rewrite IH.
Qed.

Lemma digit_value c (d : option Decimal.uint) :
  is_digit c = true → is_Some d → is_Some (uint_of_char c d).
Proof.
  intros Hc [u ->].
  destruct c as [[] [] [] [] [] [] [] []]; try discriminate Hc; by eexists.
Qed.

Lemma digits_value ds :
  all_digits ds = true → is_Some (NilEmpty.uint_of_string ds).
Proof.
  induction ds as [|c ds IH]; cbn; [by eexists|].
  intros [Hc Hds]%andb_true_iff. apply digit_value; auto.
Qed.

Lemma integer_is_Some ds : INT ds → is_Some (integer ds).
Proof.
  intros [Hne Hds]. unfold integer, NilZero.uint_of_string.
  destruct ds as [|c ds]; [done|].
  destruct (digits_value _ Hds) as [u ->]. by eexists.
Qed.

Lemma integer_nonempty ds (n : N) : integer ds = Some n → ds ≠ "".
Proof. by intros E ->. Qed.

Lemma INT_starts_with_digit ds :
  INT ds → ∃ c ds', ds = String c ds' ∧ is_digit c = true.
Proof.
  intros [Hne Hds]. destruct ds as [|c ds]; [done|].
  cbn in Hds. apply andb_true_iff in Hds as [Hc _]. eauto.
Qed.

Lemma strip_marker_shape (pre body : string) :
  marker pre → (∃ c body', body = String c body' ∧ is_digit c = true) →
  strip_marker (pre +:+ body) = body.
Proof.
  intros [->|(c & Hc & ->)] (c' & body' & -> & Hc').
  - rewrite append_nil_l. cbn. by rewrite Hc'.
  - rewrite append_cons, append_nil_l. cbn. by rewrite Hc.
Qed.

Lemma strip_marker_inv text :
  ∃ pre, marker pre ∧ text = pre +:+ strip_marker text.
Proof.
  destruct text as [|c text]; [exists ""; split; [by left|done]|].
  cbn. destruct (is_digit c) eqn:Hc.
  - exists "". split; [by left|done].
  - exists (String c ""). split; [right; eauto|done].
Qed.

Lemma expect_dot_inv s r : expect_dot s = Some r → s = "." +:+ r.
Proof.
  destruct s as [|c s]; [done|]. cbn.
  destruct c as [[] [] [] [] [] [] [] []]; try discriminate.
  by intros [= ->].
Qed.

(** The parser accepts every string of the pattern, and computes the
    three integers and the string without its prefix. *)
Lemma spec_semver_parse_complete (pre a b c : string) :
  marker pre → INT a → INT b → INT c →
  ∃ ma mi pa,
    integer a = Some ma ∧ integer b = Some mi ∧ integer c = Some pa ∧
    spec_semver_parse (pre +:+ a +:+ "." +:+ b +:+ "." +:+ c)
    = Some {| version := a +:+ "." +:+ b +:+ "." +:+ c ;
              major := ma ; minor := mi ; patch := pa |}.
Proof.
  intros Hpre Ha Hb Hc.
  destruct (integer_is_Some _ Ha) as [ma Ema].
  destruct (integer_is_Some _ Hb) as [mi Emi].
  destruct (integer_is_Some _ Hc) as [pa Epa].
  exists ma, mi, pa. repeat split; try done.
  unfold spec_semver_parse.
  assert (strip_marker (pre +:+ a +:+ "." +:+ b +:+ "." +:+ c)
          = a +:+ "." +:+ b +:+ "." +:+ c) as ->.
  { apply strip_marker_shape; [done|].
    destruct (INT_starts_with_digit _ Ha) as (ch & a' & -> & Hch).
    cbn. eauto. }
  rewrite (span_digits_app a) by (by destruct Ha).
  rewrite Ema. simpl. rewrite append_nil_l.
  rewrite (span_digits_app b) by (by destruct Hb).
  rewrite Emi. simpl. rewrite append_nil_l.
  rewrite <- (append_nil_r c) at 1.
  rewrite (span_digits_app c) by (by destruct Hc).
  rewrite Epa. simpl. by rewrite ?append_nil_r.
Qed.

(** The parser accepts only strings of the pattern. *)
Lemma spec_semver_parse_sound text (v : SemVer) :
  spec_semver_parse text = Some v → version_shape text.
Proof.
  unfold spec_semver_parse.
  destruct (strip_marker_inv text) as (pre & Hpre & Htext).
  destruct (span_digits_spec (strip_marker text)) as (Ea & Da & _).
  destruct (span_digits (strip_marker text)) as [a r1]; cbn in Ea, Da.
  destruct (integer a) as [ma|] eqn:Ema; [cbn|done].
  destruct (expect_dot r1) as [r1'|] eqn:Ed1; [cbn|done].
  apply expect_dot_inv in Ed1 as ->.
  destruct (span_digits_spec r1') as (Eb & Db & _).
  destruct (span_digits r1') as [b r2]; cbn in Eb, Db.
  destruct (integer b) as [mi|] eqn:Emi; [cbn|done].
  destruct (expect_dot r2) as [r2'|] eqn:Ed2; [cbn|done].
  apply expect_dot_inv in Ed2 as ->.
  destruct (span_digits_spec r2') as (Ec & Dc & _).
  destruct (span_digits r2') as [c r3]; cbn in Ec, Dc.
  destruct (integer c) as [pa|] eqn:Epa; [cbn|done].
  case_bool_decide as Hr3; [|done]. subst r3. intros _.
  exists pre, a, b, c. repeat split; eauto using integer_nonempty.
  rewrite Htext, Ea, Eb, Ec. by rewrite append_nil_r.
Qed.
End Grammar.

(** The message of [InvalidVersionFormat] determines the offending input. *)
Lemma InvalidVersionFormat_inj (s t : string) :
  InvalidVersionFormat s = InvalidVersionFormat t → s = t.
Proof. unfold InvalidVersionFormat. intros [= E]. done. Qed.

(** Whatever [semver.parse] accepts, a failure of [parseVersion] is
    [InvalidVersionFormat] of its own argument. *)
Lemma parseVersion_failure_carries_input `{Semver} (text : string) (e : exn) :
  parseVersion text = Throw e → e = InvalidVersionFormat text.
Proof. by intros [_ ->]%parseVersion_Throw. Qed.

(** C3.  With the [semver] package as the spec describes it,
    [parseVersion] succeeds exactly on the strings made of an optional
    single non-digit character followed by three dot-separated runs of
    digits and nothing else; on every other string it throws the [Error]
    whose message is ["Invalid version format: "] followed by that very
    string. *)
Theorem parseVersion_accepts_exactly_the_pattern (text : string) :
  ((∃ v, @parseVersion spec_semver text = Ok v) ↔ version_shape text) ∧
  (¬ version_shape text →
   @parseVersion spec_semver text
   = Throw (Error ("Invalid version format: " +:+ text))).
Proof.
  assert ((∃ v, @parseVersion spec_semver text = Ok v) → version_shape text)
    as Hsound.
  { intros [v E]. apply parseVersion_Ok in E.
    by apply (spec_semver_parse_sound text v). }
  split; [split; [done|]|].
  - intros (pre & a & b & c & Hpre & Ha & Hb & Hc & ->).
    destruct (spec_semver_parse_complete pre a b c Hpre Ha Hb Hc)
      as (ma & mi & pa & _ & _ & _ & E).
    eexists. apply parseVersion_Ok. exact E.
  - intros Hnot.
    destruct (@parseVersion_cases spec_semver text) as [Hok|E]; [|done].
    destruct (Hnot (Hsound Hok)).
Qed.

(** C8.  With the [semver] package as the spec describes it: for a
    string [major.minor.patch] of three runs of digits, [parseVersion]
    returns that same string as the [version] field, and for the same
    string behind a single ["v"] it returns the string without the
    ["v"]; the three numbers are the values of the three runs. *)
Theorem parseVersion_version_field (a b c : string) :
  INT a → INT b → INT c →
  ∃ ma mi pa,
    integer a = Some ma ∧ integer b = Some mi ∧ integer c = Some pa ∧
    @parseVersion spec_semver (a +:+ "." +:+ b +:+ "." +:+ c)
    = Ok {| version := a +:+ "." +:+ b +:+ "." +:+ c ;
            major := ma ; minor := mi ; patch := pa |} ∧
    @parseVersion spec_semver ("v" +:+ a +:+ "." +:+ b +:+ "." +:+ c)
    = Ok {| version := a +:+ "." +:+ b +:+ "." +:+ c ;
            major := ma ; minor := mi ; patch := pa |}.
Proof.
  intros Ha Hb Hc.
  destruct (spec_semver_parse_complete "" a b c) as (ma & mi & pa & Ea & Eb & Ec & E0);
    [by left|done..|].
  destruct (spec_semver_parse_complete "v" a b c) as (ma' & mi' & pa' & Ea' & Eb' & Ec' & Ev);
    [right; by exists "v"%char|done..|].
  exists ma, mi, pa. repeat split; try done.
  - by apply parseVersion_Ok.
  - apply parseVersion_Ok. etrans; [exact Ev|]. congruence.
Qed.

Lemma parseVersion_version_field_witness :
  INT "10" ∧ INT "20" ∧ INT "30" ∧
  ∃ ma mi pa,
    integer "10" = Some ma ∧ integer "20" = Some mi ∧ integer "30" = Some pa ∧
    @parseVersion spec_semver ("10" +:+ "." +:+ "20" +:+ "." +:+ "30")
    = Ok {| version := "10" +:+ "." +:+ "20" +:+ "." +:+ "30" ;
            major := ma ; minor := mi ; patch := pa |} ∧
    @parseVersion spec_semver ("v" +:+ "10" +:+ "." +:+ "20" +:+ "." +:+ "30")
    = Ok {| version := "10" +:+ "." +:+ "20" +:+ "." +:+ "30" ;
            major := ma ; minor := mi ; patch := pa |}.
Proof.
  assert (INT "10" ∧ INT "20" ∧ INT "30") as (H10 & H20 & H30)
    by (repeat split; discriminate).
  repeat (split; [assumption|]).
  exact (parseVersion_version_field "10" "20" "30" H10 H20 H30).
Defined.


(* ===================================================================== *)
(** ** More about isMajorBump *)
(* ===================================================================== *)

(** X1.  [isMajorBump] throws exactly when one of its arguments does not
    parse, and the exception names the first one that does not: the old
    version if it does not parse (whatever the new one is), otherwise the
    new version. *)
Theorem isMajorBump_throws_iff `{Semver}
    (oldVersion newVersion : string) (e : exn) :
  isMajorBump oldVersion newVersion = Throw e ↔
  (semver_parse oldVersion = None ∧ e = InvalidVersionFormat oldVersion) ∨
  (is_Some (semver_parse oldVersion) ∧ semver_parse newVersion = None ∧
   e = InvalidVersionFormat newVersion).
Proof.
  split.
  - intros E. destruct (isMajorBump_Throw_inv _ _ _ E) as [Eo|[[vo Eo] En]].
    + left. by apply parseVersion_Throw.
    + right. apply parseVersion_Ok in Eo. apply parseVersion_Throw in En.
      split; [by eexists|done].
  - unfold isMajorBump. intros [[Eo ->]|([vo Eo] & En & ->)].
    + assert (parseVersion oldVersion
              = Throw (InvalidVersionFormat oldVersion)) as ->; [|done].
      by apply parseVersion_Throw.
    + apply parseVersion_Ok in Eo. rewrite Eo. cbn.
      assert (parseVersion newVersion
              = Throw (InvalidVersionFormat newVersion)) as ->; [|done].
      by apply parseVersion_Throw.
Qed.

Lemma isMajorBump_true_swap `{Semver} (a b : string) :
  isMajorBump a b = Ok true → isMajorBump b a = Ok false.
Proof.
  intros E. apply isMajorBump_Ok_inv in E as (va & vb & Ea & Eb & Hlt).
  rewrite (isMajorBump_parsed _ _ _ _ Eb Ea). f_equal.
  symmetry in Hlt. apply N.ltb_lt in Hlt.
  apply N.ltb_ge. by apply N.lt_le_incl.
Qed.

(** X2.  A major bump is never a major bump in the other direction. *)
Theorem isMajorBump_asymmetric `{Semver} (a b : string) :
  isMajorBump a b = Ok true → isMajorBump b a = Ok false.
Proof.
  unfold isMajorBump.
  destruct (parseVersion a) as [va|]; [|discriminate].
  destruct (parseVersion b) as [vb|]; [|discriminate].
  cbn. intros [= Hlt]. f_equal.
  apply N.ltb_lt in Hlt. apply N.ltb_ge. by apply N.lt_le_incl.
Qed.

Lemma isMajorBump_asymmetric_witness :
  @isMajorBump spec_semver "1.2.3" "2.0.0" = Ok true ∧
  @isMajorBump spec_semver "2.0.0" "1.2.3" = Ok false.
Proof.
  split; [reflexivity|].
  apply (@isMajorBump_asymmetric spec_semver "1.2.3" "2.0.0"). reflexivity.
Defined.

(** X3.  Major bumps compose: a bump from [a] to [b] followed by a bump
    from [b] to [c] is a bump from [a] to [c]. *)
Theorem isMajorBump_transitive `{Semver} (a b c : string) :
  isMajorBump a b = Ok true →
  isMajorBump b c = Ok true →
  isMajorBump a c = Ok true.
Proof.
  intros Eab Ebc.
  apply isMajorBump_Ok_inv in Eab as (va & vb & Ea & Eb & Hab).
  apply isMajorBump_Ok_inv in Ebc as (vb' & vc & Eb' & Ec & Hbc).
  rewrite Eb in Eb'. injection Eb' as <-.
  rewrite (isMajorBump_parsed _ _ _ _ Ea Ec). f_equal.
  symmetry in Hab, Hbc. apply N.ltb_lt in Hab, Hbc. apply N.ltb_lt.
  by etrans.
Qed.

Lemma isMajorBump_transitive_witness :
  @isMajorBump spec_semver "0.5.0" "1.0.0" = Ok true ∧
  @isMajorBump spec_semver "1.0.0" "v3.1.4" = Ok true ∧
  @isMajorBump spec_semver "0.5.0" "v3.1.4" = Ok true.
Proof.
  split; [reflexivity|]. split; [reflexivity|].
  apply (@isMajorBump_transitive spec_semver "0.5.0" "1.0.0" "v3.1.4");
    reflexivity.
Defined.

(** X4.  The answer of [isMajorBump] depends on the two major numbers
    only: versions that parse to the same majors can be exchanged,
    whatever their minor and patch numbers and their spelling. *)
Theorem isMajorBump_depends_on_major_only `{Semver}
    (a a' b b' : string) (va va' vb vb' : SemVer) :
  parseVersion a = Ok va → parseVersion a' = Ok va' →
  parseVersion b = Ok vb → parseVersion b' = Ok vb' →
  major va = major va' → major vb = major vb' →
  isMajorBump a b = isMajorBump a' b'.
Proof.
  intros Ea Ea' Eb Eb' Hma Hmb.
  rewrite (isMajorBump_parsed _ _ _ _ Ea Eb).
  rewrite (isMajorBump_parsed _ _ _ _ Ea' Eb'). by rewrite Hma, Hmb.
Qed.

Lemma isMajorBump_depends_on_major_only_witness :
  @isMajorBump spec_semver "1.2.3" "2.0.0"
  = @isMajorBump spec_semver "v1.9.9" "2.5.1".
Proof.
  apply (@isMajorBump_depends_on_major_only spec_semver
           "1.2.3" "v1.9.9" "2.0.0" "2.5.1"
           (mkSemVer "1.2.3" 1 2 3) (mkSemVer "1.9.9" 1 9 9)
           (mkSemVer "2.0.0" 2 0 0) (mkSemVer "2.5.1" 2 5 1));
    reflexivity.
Defined.

(* ===================================================================== *)
(** ** More about analyzeManifestChanges *)
(* ===================================================================== *)

Section LoopMore.
Context `{Semver}.
Implicit Types (oldManifest newManifest : gmap string string).
Implicit Types (acc : gmap string (string * string)).
Implicit Types (entries : list (string * string)).

(** The loop reads the old manifest at the paths it visits only. *)
Lemma for_of_old_agree old1 old2 entries acc :
  (∀ path newVersion, (path, newVersion) ∈ entries →
                      old1 !! path = old2 !! path) →
  for_of old1 entries acc = for_of old2 entries acc.
Proof.
  revert acc. induction entries as [|[p n] rest IH]; intros acc Hagree;
    cbn [for_of]; [done|].
  assert (visit old1 acc (p, n) = visit old2 acc (p, n)) as ->.
  { unfold visit, get_property. by rewrite (Hagree p n) by (by left). }
  destruct (visit old2 acc (p, n)) as [acc1|e]; cbn; [|done].
  apply IH. intros q n' Hin. apply (Hagree q n'). by right.
Qed.

(** A loop whose iterations all see a falsy condition records nothing. *)
Lemma for_of_all_skipped oldManifest entries acc :
  (∀ path newVersion, (path, newVersion) ∈ entries →
                      visit oldManifest acc (path, newVersion) = Ok acc) →
  for_of oldManifest entries acc = Ok acc.
Proof.
  induction entries as [|[p n] rest IH]; intros Hskip; cbn [for_of]; [done|].
  rewrite (Hskip p n) by (by left). cbn.
  apply IH. intros q n' Hin. apply Hskip. by right.
Qed.

Lemma analyze_of_loop oldManifest newManifest (mb : gmap string (string * string)) :
  for_of oldManifest (map_to_list newManifest) ∅ = Ok mb →
  analyzeManifestChanges (Some oldManifest) (Some newManifest)
  = Ok {| hasMajorBump := (0 <? length (Object_keys mb))%nat ;
          majorBumps := mb |}.
Proof. unfold analyzeManifestChanges, Object_entries. by intros ->. Qed.

Lemma is_recorded_parsed (oldVersion newVersion : string) (vo vn : SemVer) :
  parseVersion oldVersion = Ok vo →
  parseVersion newVersion = Ok vn →
  ∃ b, is_recorded oldVersion newVersion = Ok b.
Proof.
  intros Eo En. unfold is_recorded.
  destruct (truthy oldVersion); [|eauto].
  case_bool_decide; [|eauto].
  rewrite (isMajorBump_parsed _ _ _ _ Eo En). eauto.
Qed.

Lemma is_recorded_major_increase (oldVersion newVersion : string)
    (vo vn : SemVer) :
  oldVersion ≠ "" →
  parseVersion oldVersion = Ok vo →
  parseVersion newVersion = Ok vn →
  (major vo < major vn)%N →
  is_recorded oldVersion newVersion = Ok true.
Proof.
  intros Hne Eo En Hlt.
  assert (oldVersion ≠ newVersion) as Hdiff.
  { intros ->. rewrite Eo in En. injection En as ->.
    by apply N.lt_irrefl in Hlt. }
  rewrite (is_recorded_checked _ _ Hne Hdiff).
  rewrite (isMajorBump_parsed _ _ _ _ Eo En). f_equal. by apply N.ltb_lt.
Qed.
End LoopMore.



(** X6.  The analysis of two present snapshots returns a result exactly
    when (1) at every path of the overlap whose old string is not empty
    and differs from the new string, both strings parse, and (2) no path
    that only the new snapshot has is the name of a member of
    [Object.prototype]; otherwise it throws. *)
Theorem analyze_returns_iff `{Semver}
    (oldManifest newManifest : gmap string string) :
  (∃ r, analyzeManifestChanges (Some oldManifest) (Some newManifest) = Ok r) ↔
  (∀ path old new,
     oldManifest !! path = Some old →
     newManifest !! path = Some new →
     old ≠ "" → old ≠ new →
     (∃ vo, parseVersion old = Ok vo) ∧ (∃ vn, parseVersion new = Ok vn)) ∧
  (∀ path, is_Some (newManifest !! path) →
           oldManifest !! path = None →
           Object_prototype path = None).
Proof.
  split.
  - intros [r E]. split.
    + intros path old new Ho Hn Hne Hdiff.
      destruct (parseVersion_cases old) as [Hold|Eo];
        [destruct (parseVersion_cases new) as [Hnew|En]; [done|]|].
      * apply parseVersion_Throw in En as [En _].
        destruct (isMajorBump_unparsable old new (or_intror En))
          as (bad & _ & _ & Eb).
        rewrite <- (is_recorded_checked _ _ Hne Hdiff) in Eb.
        pose proof (visit_recorded oldManifest ∅ _ _ _ _ Ho Eb) as Hv.
        destruct (analyze_throws _ _ _ _ _ _ Hn Hv) as [e' E'].
        congruence.
      * apply parseVersion_Throw in Eo as [Eo _].
        destruct (isMajorBump_unparsable old new (or_introl Eo))
          as (bad & _ & _ & Eb).
        rewrite <- (is_recorded_checked _ _ Hne Hdiff) in Eb.
        pose proof (visit_recorded oldManifest ∅ _ _ _ _ Ho Eb) as Hv.
        destruct (analyze_throws _ _ _ _ _ _ Hn Hv) as [e' E'].
        congruence.
    + intros path [new Hn] Ho.
      destruct (Object_prototype path) as [text|] eqn:Hp; [|done].
      pose proof (visit_inherited oldManifest ∅ path new text Ho Hp) as Hv.
      destruct (analyze_throws _ _ _ _ _ _ Hn Hv) as [e' E'].
      congruence.
  - intros [Hparse Hplain].
    destruct (for_of_returns oldManifest (map_to_list newManifest) ∅)
      as [mb E].
    { intros path new acc0 e Hin Hv. apply elem_of_map_to_list in Hin.
      destruct (visit_Throw_inv _ _ _ _ _ Hv)
        as [(old & Ho & Hne & Hdiff & Eb)|(Ho & text & Hp & _)].
      - destruct (Hparse _ _ _ Ho Hin Hne Hdiff) as [[vo Eo] [vn En]].
        rewrite (isMajorBump_parsed _ _ _ _ Eo En) in Eb. discriminate.
      - rewrite (Hplain path) in Hp by eauto. discriminate. }
    eexists. by apply analyze_of_loop.
Qed.

(** X7.  The analysis reads the old snapshot at the paths of the new
    snapshot only: two old snapshots that agree there give the same
    outcome, result or exception.  So a package that was removed (a path
    of the old snapshot only) has no influence, whatever its version
    string. *)
Theorem analyze_reads_old_at_new_paths `{Semver}
    (old1 old2 newManifest : gmap string string) :
  (∀ path, is_Some (newManifest !! path) → old1 !! path = old2 !! path) →
  analyzeManifestChanges (Some old1) (Some newManifest)
  = analyzeManifestChanges (Some old2) (Some newManifest).
Proof.
  intros Hagree. unfold analyzeManifestChanges, Object_entries.
  rewrite (for_of_old_agree old1 old2); [done|].
  intros path n Hin. apply elem_of_map_to_list in Hin. apply Hagree. eauto.
Qed.

Lemma analyze_reads_old_at_new_paths_witness :
  @analyzeManifestChanges spec_semver
    (Some {[ "." := "1.2.3" ; "packages/removed" := "not a version" ]})
    (Some {[ "." := "2.0.0" ]})
  = @analyzeManifestChanges spec_semver
      (Some {[ "." := "1.2.3" ]}) (Some {[ "." := "2.0.0" ]}).
Proof.
  apply (@analyze_reads_old_at_new_paths spec_semver
           {[ "." := "1.2.3" ; "packages/removed" := "not a version" ]}
           {[ "." := "1.2.3" ]} {[ "." := "2.0.0" ]}).
  intros path [n Hn].
  destruct (decide (path = ".")) as [->|Hne]; [reflexivity|].
  rewrite lookup_singleton_ne in Hn by done. discriminate.
Defined.

(** X8.  When no path of the overlap changed its version string (the new
    snapshot only adds or removes packages, or is the same), and no path
    that only the new snapshot has is the name of a member of
    [Object.prototype], the analysis returns
    [{hasMajorBump: false, majorBumps: {}}]; it parses nothing, so it
    does not throw even on malformed strings. *)
Theorem analyze_unchanged_overlap `{Semver}
    (oldManifest newManifest : gmap string string) :
  (∀ path old new,
     oldManifest !! path = Some old → newManifest !! path = Some new →
     old = new) →
  (∀ path, is_Some (newManifest !! path) →
           oldManifest !! path = None →
           Object_prototype path = None) →
  analyzeManifestChanges (Some oldManifest) (Some newManifest)
  = Ok {| hasMajorBump := false ; majorBumps := ∅ |}.
Proof.
  intros Hsame Hplain.
  rewrite (analyze_of_loop oldManifest newManifest ∅).
  - unfold Object_keys. by rewrite map_to_list_empty.
  - apply for_of_all_skipped. intros path new Hin.
    apply elem_of_map_to_list in Hin.
    destruct (oldManifest !! path) as [old|] eqn:Ho.
    + rewrite (visit_recorded _ _ _ _ _ _ Ho eq_refl).
      rewrite (Hsame _ _ _ Ho Hin). by rewrite is_recorded_same.
    + apply visit_new_path; [done|]. apply Hplain; eauto.
Qed.

Lemma analyze_unchanged_overlap_witness :
  @analyzeManifestChanges spec_semver
    (Some {[ "." := "broken" ; "packages/old" := "1.0.0" ]})
    (Some {[ "." := "broken" ; "packages/new" := "5.0.0" ]})
  = Ok {| hasMajorBump := false ; majorBumps := ∅ |}.
Proof.
  apply (@analyze_unchanged_overlap spec_semver
           {[ "." := "broken" ; "packages/old" := "1.0.0" ]}
           {[ "." := "broken" ; "packages/new" := "5.0.0" ]}).
  - intros path old new Ho Hn.
    destruct (decide (path = ".")) as [->|Hne1].
    + vm_compute in Ho, Hn. congruence.
    + destruct (decide (path = "packages/old")) as [->|Hne2].
      * vm_compute in Hn. discriminate.
      * rewrite lookup_insert_ne, lookup_singleton_ne in Ho by done.
        discriminate.
  - intros path [new Hn] _.
    destruct (decide (path = ".")) as [->|Hne1]; [reflexivity|].
    destruct (decide (path = "packages/new")) as [->|Hne2]; [reflexivity|].
    rewrite lookup_insert_ne, lookup_singleton_ne in Hn by done.
    discriminate.
Defined.

(** X9.  A path reported when comparing [old] with [new] is not reported
    when the two snapshots are exchanged: a bump that is rolled back is
    not a bump. *)
Theorem analyze_exchanged_snapshots `{Semver}
    (oldManifest newManifest : gmap string string)
    (r r' : ManifestAnalysis) (path : string) :
  analyzeManifestChanges (Some oldManifest) (Some newManifest) = Ok r →
  analyzeManifestChanges (Some newManifest) (Some oldManifest) = Ok r' →
  is_Some (majorBumps r !! path) →
  majorBumps r' !! path = None.
Proof.
  intros E E' [[o n] Hl].
  apply (analyze_lookup _ _ _ _ _ _ E) in Hl as (_ & Ho & Hn & Hr).
  destruct (majorBumps r' !! path) as [[o' n']|] eqn:Hl'; [|done].
  apply (analyze_lookup _ _ _ _ _ _ E') in Hl' as (_ & Ho' & Hn' & Hr').
  rewrite Hn in Ho'. injection Ho' as <-.
  rewrite Ho in Hn'. injection Hn' as <-.
  apply is_recorded_true_inv in Hr as (_ & _ & Eb).
  apply is_recorded_true_inv in Hr' as (_ & _ & Eb').
  apply isMajorBump_true_swap in Eb. congruence.
Qed.

Lemma analyze_exchanged_snapshots_witness :
  @analyzeManifestChanges spec_semver
    (Some {[ "." := "1.2.3" ]}) (Some {[ "." := "2.0.0" ]})
    = Ok {| hasMajorBump := true ;
            majorBumps := {[ "." := ("1.2.3", "2.0.0") ]} |} ∧
  @analyzeManifestChanges spec_semver
    (Some {[ "." := "2.0.0" ]}) (Some {[ "." := "1.2.3" ]})
    = Ok {| hasMajorBump := false ; majorBumps := ∅ |} ∧
  (∅ : gmap string (string * string)) !! "." = None.
Proof.
  split; [vm_compute; reflexivity|]. split; [vm_compute; reflexivity|].
  refine (@analyze_exchanged_snapshots spec_semver
            {[ "." := "1.2.3" ]} {[ "." := "2.0.0" ]}
            {| hasMajorBump := true ;
               majorBumps := {[ "." := ("1.2.3", "2.0.0") ]} |}
            {| hasMajorBump := false ; majorBumps := ∅ |} "." _ _ _);
    [vm_compute; reflexivity | vm_compute; reflexivity |].
  exists ("1.2.3", "2.0.0"). vm_compute. reflexivity.
Defined.

(** X10.  The flag of a returned analysis of two present snapshots is
    [true] exactly when some package of the overlap, at a path other than
    [__proto__], has a non-empty old version and the major of its new
    version is strictly greater than the major of its old version. *)
Theorem hasMajorBump_iff_some_major_increase `{Semver}
    (oldManifest newManifest : gmap string string) (r : ManifestAnalysis) :
  analyzeManifestChanges (Some oldManifest) (Some newManifest) = Ok r →
  hasMajorBump r = true ↔
  ∃ path old new vo vn,
    path ≠ "__proto__" ∧
    oldManifest !! path = Some old ∧ newManifest !! path = Some new ∧
    old ≠ "" ∧
    parseVersion old = Ok vo ∧ parseVersion new = Ok vn ∧
    (major vo < major vn)%N.
Proof.
  intros E. destruct (analyze_Ok_inv _ _ _ E) as [_ ->].
  rewrite hasMajorBump_nonempty. split.
  - intros Hne. apply map_choose in Hne as (path & [o n] & Hl).
    apply (analyze_lookup _ _ _ _ _ _ E) in Hl as (Hp & Ho & Hn & Hr).
    apply is_recorded_true_inv in Hr as (Hne & _ & Eb).
    apply isMajorBump_Ok_inv in Eb as (vo & vn & Eo & En & Hlt).
    exists path, o, n, vo, vn. repeat split; try done. by apply N.ltb_lt.
  - intros (path & o & n & vo & vn & Hp & Ho & Hn & Hne & Eo & En & Hlt) Hempty.
    assert (majorBumps r !! path = Some (o, n)) as Hl.
    { apply (analyze_lookup _ _ _ _ _ _ E).
      eauto using is_recorded_major_increase. }
    rewrite Hempty, lookup_empty in Hl. discriminate.
Qed.

Lemma hasMajorBump_iff_some_major_increase_witness :
  @analyzeManifestChanges spec_semver
    (Some {[ "__proto__" := "1.0.0" ]}) (Some {[ "__proto__" := "2.0.0" ]})
    = Ok {| hasMajorBump := false ; majorBumps := ∅ |} ∧
  (false = true ↔
   ∃ path old new vo vn,
     path ≠ "__proto__" ∧
     ({[ "__proto__" := "1.0.0" ]} : gmap string string) !! path = Some old ∧
     ({[ "__proto__" := "2.0.0" ]} : gmap string string) !! path = Some new ∧
     old ≠ "" ∧
     @parseVersion spec_semver old = Ok vo ∧
     @parseVersion spec_semver new = Ok vn ∧
     (major vo < major vn)%N).
Proof.
  split; [vm_compute; reflexivity|].
  refine (@hasMajorBump_iff_some_major_increase spec_semver
            {[ "__proto__" := "1.0.0" ]} {[ "__proto__" := "2.0.0" ]}
            {| hasMajorBump := false ; majorBumps := ∅ |} _).
  vm_compute. reflexivity.
Defined.

Lemma for_of_permutation_witness :
  @for_of spec_semver {[ "a" := "1.0.0" ; "b" := "2.0.0" ]}
    [("a", "2.0.0"); ("b", "3.1.0")] ∅
    = Ok {[ "a" := ("1.0.0", "2.0.0") ; "b" := ("2.0.0", "3.1.0") ]} ∧
  @for_of spec_semver {[ "a" := "1.0.0" ; "b" := "2.0.0" ]}
    [("b", "3.1.0"); ("a", "2.0.0")] ∅
    = Ok {[ "a" := ("1.0.0", "2.0.0") ; "b" := ("2.0.0", "3.1.0") ]}.
Proof.
  split; [vm_compute; reflexivity|].
  apply (@for_of_permutation spec_semver
           {[ "a" := "1.0.0" ; "b" := "2.0.0" ]}
           [("a", "2.0.0"); ("b", "3.1.0")]
           [("b", "3.1.0"); ("a", "2.0.0")]).
  - apply Permutation_swap.
  - apply NoDup_cons. split; [|apply NoDup_singleton].
    intros Hin%list_elem_of_singleton. discriminate Hin.
  - vm_compute. reflexivity.
Defined.

(* ===================================================================== *)
(** ** Facts about getManifestAtRef and detectMajorBumps *)
(* ===================================================================== *)

Section FetchFacts.
Context `{Semver} `{Runtime} `{Toolkit}.
Implicit Types (octokit : Octokit) (error : thrown).

Lemma is_not_found_of_exn (e : exn) : is_not_found (thrown_of_exn e) = false.
Proof. reflexivity. Qed.

(** The [try] block rejects with what the request or the parsing of a
    non-empty content rejected with. *)
Lemma getManifestAtRef_try_Rejected octokit (manifestPath ref : string) error :
  getManifestAtRef_try octokit manifestPath ref = Rejected error ↔
  rest_repos_getContent octokit (repo_owner context) (repo_repo context)
    manifestPath ref = Rejected error ∨
  ∃ data text,
    rest_repos_getContent octokit (repo_owner context) (repo_repo context)
      manifestPath ref = Fulfilled data ∧
    content data = Some text ∧ text ≠ "" ∧
    JSON_parse_base64 text = Rejected error.
Proof.
  unfold getManifestAtRef_try.
  destruct (rest_repos_getContent _ _ _ _ _) as [data|e0]; cbn.
  - split.
    + intros E. right. exists data.
      destruct (content data) as [text|]; [|discriminate].
      unfold truthy in E. case_bool_decide; [|discriminate]. eauto.
    + intros [Hrej|(data' & text & [= <-] & -> & Hne & E)]; [discriminate|].
      unfold truthy. by rewrite bool_decide_eq_true_2.
  - split.
    + intros [= <-]. by left.
    + intros [[= <-]|(data' & text & Hd & _)]; [done|discriminate].
Qed.

Lemma getManifestAtRef_try_Fulfilled octokit (manifestPath ref : string)
    (manifest : option (gmap string string)) :
  getManifestAtRef_try octokit manifestPath ref = Fulfilled manifest ↔
  ∃ data,
    rest_repos_getContent octokit (repo_owner context) (repo_repo context)
      manifestPath ref = Fulfilled data ∧
    ((content data = None ∧ manifest = None) ∨
     (content data = Some "" ∧ manifest = None) ∨
     (∃ text, content data = Some text ∧ text ≠ "" ∧
              JSON_parse_base64 text = Fulfilled manifest)).
Proof.
  unfold getManifestAtRef_try.
  destruct (rest_repos_getContent _ _ _ _ _) as [data|e0]; cbn.
  - split.
    + intros E. exists data. split; [done|].
      destruct (content data) as [text|]; [|injection E as <-; by left].
      right. unfold truthy in E. case_bool_decide as Hne.
      * right. eauto.
      * left. subst text. by injection E as <-.
    + intros (data' & [= <-] & [[-> ->]|[[-> ->]|(text & -> & Hne & E)]]);
        try done.
      unfold truthy. by rewrite bool_decide_eq_true_2.
  - split; [discriminate|]. intros (data' & Hd & _). discriminate.
Qed.

Lemma getManifestAtRef_Rejected octokit (manifestPath ref : string) error :
  getManifestAtRef octokit manifestPath ref = Rejected error ↔
  is_not_found error = false ∧
  getManifestAtRef_try octokit manifestPath ref = Rejected error.
Proof.
  unfold getManifestAtRef.
  destruct (getManifestAtRef_try octokit manifestPath ref) as [m|e0].
  - split; [discriminate|]. intros [_ E]. discriminate.
  - destruct (is_not_found e0) eqn:Hnf; split.
    + discriminate.
    + intros [Hf [= <-]]. congruence.
    + intros [= <-]. done.
    + by intros [_ [= <-]].
Qed.

Lemma getManifestAtRef_Fulfilled octokit (manifestPath ref : string)
    (manifest : option (gmap string string)) :
  getManifestAtRef octokit manifestPath ref = Fulfilled manifest ↔
  getManifestAtRef_try octokit manifestPath ref = Fulfilled manifest ∨
  (manifest = None ∧
   ∃ error, is_not_found error = true ∧
            getManifestAtRef_try octokit manifestPath ref = Rejected error).
Proof.
  unfold getManifestAtRef.
  destruct (getManifestAtRef_try octokit manifestPath ref) as [m|e0].
  - split; [by left|]. intros [E|(_ & e & _ & E)]; [done|discriminate].
  - destruct (is_not_found e0) eqn:Hnf; split.
    + intros [= <-]. right. eauto.
    + intros [E|(-> & _)]; [discriminate|done].
    + discriminate.
    + intros [E|(_ & e & Hf & [= <-])]; [discriminate|congruence].
Qed.

(** [detectMajorBumps] returns what the analysis of the two fetched
    snapshots returns, when both fetches are fulfilled. *)
Lemma detectMajorBumps_fetched octokit (manifestPath baseSha headSha : string)
    (oldManifest newManifest : option (gmap string string)) :
  getManifestAtRef octokit manifestPath baseSha = Fulfilled oldManifest →
  getManifestAtRef octokit manifestPath headSha = Fulfilled newManifest →
  detectMajorBumps octokit manifestPath baseSha headSha
  = of_result (analyzeManifestChanges oldManifest newManifest).
Proof. unfold detectMajorBumps. by intros -> ->. Qed.

Lemma detectMajorBumps_inv octokit (manifestPath baseSha headSha : string) :
  (∃ oldManifest newManifest,
     getManifestAtRef octokit manifestPath baseSha = Fulfilled oldManifest ∧
     getManifestAtRef octokit manifestPath headSha = Fulfilled newManifest ∧
     detectMajorBumps octokit manifestPath baseSha headSha
     = of_result (analyzeManifestChanges oldManifest newManifest)) ∨
  (∃ error,
     detectMajorBumps octokit manifestPath baseSha headSha = Rejected error ∧
     (getManifestAtRef octokit manifestPath baseSha = Rejected error ∨
      getManifestAtRef octokit manifestPath headSha = Rejected error)).
Proof.
  unfold detectMajorBumps, Promise_all.
  destruct (getManifestAtRef octokit manifestPath baseSha) as [mo|e1],
           (getManifestAtRef octokit manifestPath headSha) as [mn|e2]; cbn.
  - left. eauto.
  - right. eauto.
  - right. eauto.
  - right. destruct head_rejects_first; eauto.
Qed.

Lemma of_result_Fulfilled {A : Type} (r : result A) (a : A) :
  of_result r = Fulfilled a ↔ r = Ok a.
Proof. destruct r; cbn; split; congruence. Qed.

Lemma of_result_Rejected {A : Type} (r : result A) error :
  of_result r = Rejected error ↔ ∃ e, r = Throw e ∧ error = thrown_of_exn e.
Proof.
  destruct r as [a|e]; cbn; split.
  - discriminate.
  - intros (e & E & _). discriminate.
  - intros [= <-]. eauto.
  - intros (e' & [= <-] & ->). done.
Qed.

Lemma detectMajorBumps_Fulfilled octokit (manifestPath baseSha headSha : string)
    (analysis : ManifestAnalysis) :
  detectMajorBumps octokit manifestPath baseSha headSha = Fulfilled analysis ↔
  ∃ oldManifest newManifest,
    getManifestAtRef octokit manifestPath baseSha = Fulfilled oldManifest ∧
    getManifestAtRef octokit manifestPath headSha = Fulfilled newManifest ∧
    analyzeManifestChanges oldManifest newManifest = Ok analysis.
Proof.
  split.
  - intros E.
    destruct (detectMajorBumps_inv octokit manifestPath baseSha headSha)
      as [(mo & mn & Eo & En & Ed)|(e & Ed & _)]; [|congruence].
    exists mo, mn. repeat split; try done.
    apply of_result_Fulfilled. congruence.
  - intros (mo & mn & Eo & En & Ea).
    rewrite (detectMajorBumps_fetched _ _ _ _ _ _ Eo En).
    by apply of_result_Fulfilled.
Qed.

(** A fulfilled analysis has its flag set exactly when it reports
    something. *)
Lemma detectMajorBumps_flag octokit (manifestPath baseSha headSha : string)
    (analysis : ManifestAnalysis) :
  detectMajorBumps octokit manifestPath baseSha headSha = Fulfilled analysis →
  hasMajorBump analysis = true ↔ majorBumps analysis ≠ ∅.
Proof.
  intros (mo & mn & _ & _ & Ea)%detectMajorBumps_Fulfilled.
  destruct mo as [old|], mn as [new|];
    try (injection Ea as <-; cbn; split; done).
  apply analyze_Ok_inv in Ea as [_ ->]. apply hasMajorBump_nonempty.
Qed.
End FetchFacts.

(** X12.  [getManifestAtRef] rejects exactly with what the request, or
    the parsing of a non-empty content, rejected with, unchanged, unless
    that is an object whose [status] is 404; it never rejects with such
    an object. *)
Theorem getManifestAtRef_rejects_iff `{Semver} `{Runtime} `{Toolkit}
    (octokit : Octokit) (manifestPath ref : string) (error : thrown) :
  getManifestAtRef octokit manifestPath ref = Rejected error ↔
  is_not_found error = false ∧
  (rest_repos_getContent octokit (repo_owner context) (repo_repo context)
     manifestPath ref = Rejected error ∨
   ∃ data text,
     rest_repos_getContent octokit (repo_owner context) (repo_repo context)
       manifestPath ref = Fulfilled data ∧
     content data = Some text ∧ text ≠ "" ∧
     JSON_parse_base64 text = Rejected error).
Proof.
  rewrite getManifestAtRef_Rejected.
  by rewrite getManifestAtRef_try_Rejected.
Qed.

(** X13.  [getManifestAtRef] returns [null] in these cases and no
    other: the request or the parsing is rejected with an object whose
    [status] is 404; the response has no [content]; its [content] is
    empty; or the content parses to [null]. *)
Theorem getManifestAtRef_null_iff `{Semver} `{Runtime} `{Toolkit}
    (octokit : Octokit) (manifestPath ref : string) :
  getManifestAtRef octokit manifestPath ref = Fulfilled None ↔
  (∃ error,
     is_not_found error = true ∧
     (rest_repos_getContent octokit (repo_owner context) (repo_repo context)
        manifestPath ref = Rejected error ∨
      ∃ data text,
        rest_repos_getContent octokit (repo_owner context) (repo_repo context)
          manifestPath ref = Fulfilled data ∧
        content data = Some text ∧ text ≠ "" ∧
        JSON_parse_base64 text = Rejected error)) ∨
  (∃ data,
     rest_repos_getContent octokit (repo_owner context) (repo_repo context)
       manifestPath ref = Fulfilled data ∧
     (content data = None ∨
      content data = Some "" ∨
      ∃ text, content data = Some text ∧ text ≠ "" ∧
              JSON_parse_base64 text = Fulfilled None)).
Proof.
  rewrite getManifestAtRef_Fulfilled, getManifestAtRef_try_Fulfilled.
  split.
  - intros [(data & Hd & Hcases)|(_ & e & Hnf & Htry)].
    + right. exists data. split; [done|].
      destruct Hcases as [[? _]|[[? _]|?]]; eauto.
    + left. exists e. split; [done|]. by apply getManifestAtRef_try_Rejected.
  - intros [(e & Hnf & Hrej)|(data & Hd & Hcases)].
    + right. split; [done|]. exists e. split; [done|].
      by apply getManifestAtRef_try_Rejected.
    + left. exists data. split; [done|].
      destruct Hcases as [?|[?|?]]; eauto.
Qed.

(** X14.  When one of the two fetches gives [null] and the other one is
    fulfilled, [detectMajorBumps] is fulfilled with
    [{hasMajorBump: false, majorBumps: {}}], whatever the other manifest
    holds. *)
Theorem detectMajorBumps_absent_manifest `{Semver} `{Runtime} `{Toolkit}
    (octokit : Octokit) (manifestPath baseSha headSha : string)
    (oldManifest newManifest : option (gmap string string)) :
  getManifestAtRef octokit manifestPath baseSha = Fulfilled oldManifest →
  getManifestAtRef octokit manifestPath headSha = Fulfilled newManifest →
  oldManifest = None ∨ newManifest = None →
  detectMajorBumps octokit manifestPath baseSha headSha
  = Fulfilled {| hasMajorBump := false ; majorBumps := ∅ |}.
Proof.
  intros Eo En Habsent.
  rewrite (detectMajorBumps_fetched _ _ _ _ _ _ Eo En).
  destruct Habsent as [->| ->]; [done|]. by destruct oldManifest.
Qed.

Lemma detectMajorBumps_absent_manifest_witness :
  @detectMajorBumps spec_semver mock_runtime
    (mock_toolkit (Some mock_pull_request) "" (mock_octokit respond_base_missing))
    (mock_octokit respond_base_missing)
    ".release-please-manifest.json" "base-sha-123" "head-sha-456"
  = Fulfilled {| hasMajorBump := false ; majorBumps := ∅ |}.
Proof.
  refine (@detectMajorBumps_absent_manifest spec_semver mock_runtime
            (mock_toolkit (Some mock_pull_request) ""
               (mock_octokit respond_base_missing))
            (mock_octokit respond_base_missing)
            ".release-please-manifest.json" "base-sha-123" "head-sha-456"
            None (Some {[ "." := "2.0.0" ; "packages/foo" := "4.0.0" ]})
            _ _ _);
    [vm_compute; reflexivity | vm_compute; reflexivity | by left].
Defined.

(** X15.  A rejection of [detectMajorBumps] is never an object whose
    [status] is 404, and it is either the rejection of one of the two
    fetches, unchanged, or the "Invalid version format" [Error] thrown at
    a path of the fetched new manifest: for one of the two strings the
    manifests hold there, which [semver.parse] rejects, or, when the old
    manifest has no entry there, for the member of [Object.prototype]
    that the path names. *)
Theorem detectMajorBumps_rejection `{Semver} `{Runtime} `{Toolkit}
    (octokit : Octokit) (manifestPath baseSha headSha : string)
    (error : thrown) :
  detectMajorBumps octokit manifestPath baseSha headSha = Rejected error →
  is_not_found error = false ∧
  ((getManifestAtRef octokit manifestPath baseSha = Rejected error ∨
    getManifestAtRef octokit manifestPath headSha = Rejected error) ∨
   ∃ oldManifest newManifest path new,
     getManifestAtRef octokit manifestPath baseSha
       = Fulfilled (Some oldManifest) ∧
     getManifestAtRef octokit manifestPath headSha
       = Fulfilled (Some newManifest) ∧
     newManifest !! path = Some new ∧
     ((∃ old bad,
         oldManifest !! path = Some old ∧
         (bad = old ∨ bad = new) ∧ semver_parse bad = None ∧
         error = thrown_of_exn (Error ("Invalid version format: " +:+ bad))) ∨
      (oldManifest !! path = None ∧
       ∃ text,
         Object_prototype path = Some text ∧
         error = thrown_of_exn (Error ("Invalid version format: " +:+ text))))).
Proof.
  intros E.
  destruct (detectMajorBumps_inv octokit manifestPath baseSha headSha)
    as [(mo & mn & Eo & En & Ed)|(e & Ed & Hfetch)].
  - rewrite Ed in E. apply of_result_Rejected in E as (ex & Ea & ->).
    split; [done|]. right.
    destruct mo as [old|], mn as [new|]; try discriminate Ea.
    destruct (analyze_Throw_at _ _ _ Ea)
      as (path & n & Hn & [(o & Ho & _ & _ & Eb)|(Ho & text & Hp & ->)]).
    + exists old, new, path, n. repeat split; try done. left.
      destruct (isMajorBump_Throw_inv _ _ _ Eb) as [Ep|[_ Ep]];
        apply parseVersion_Throw in Ep as [Hbad ->].
      * exists o, o. eauto.
      * exists o, n. eauto.
    + exists old, new, path, n. repeat split; try done. right. eauto.
  - rewrite Ed in E. injection E as <-. split; [|by left].
    destruct Hfetch as [Hf|Hf]; by apply getManifestAtRef_Rejected in Hf as [? _].
Qed.

Lemma detectMajorBumps_rejection_witness :
  is_not_found (ThrownObject None (Some 500%Z)) = false ∧
  ((@getManifestAtRef mock_runtime
      (mock_toolkit (Some mock_pull_request) "" (mock_octokit respond_server_error))
      (mock_octokit respond_server_error)
      ".release-please-manifest.json" "base-sha-123"
    = Rejected (ThrownObject None (Some 500%Z)) ∨
    @getManifestAtRef mock_runtime
      (mock_toolkit (Some mock_pull_request) "" (mock_octokit respond_server_error))
      (mock_octokit respond_server_error)
      ".release-please-manifest.json" "head-sha-456"
    = Rejected (ThrownObject None (Some 500%Z))) ∨
   ∃ oldManifest newManifest path new,
     @getManifestAtRef mock_runtime
       (mock_toolkit (Some mock_pull_request) "" (mock_octokit respond_server_error))
       (mock_octokit respond_server_error)
       ".release-please-manifest.json" "base-sha-123"
       = Fulfilled (Some oldManifest) ∧
     @getManifestAtRef mock_runtime
       (mock_toolkit (Some mock_pull_request) "" (mock_octokit respond_server_error))
       (mock_octokit respond_server_error)
       ".release-please-manifest.json" "head-sha-456"
       = Fulfilled (Some newManifest) ∧
     newManifest !! path = Some new ∧
     ((∃ old bad,
         oldManifest !! path = Some old ∧
         (bad = old ∨ bad = new) ∧ @semver_parse spec_semver bad = None ∧
         ThrownObject None (Some 500%Z)
         = thrown_of_exn (Error ("Invalid version format: " +:+ bad))) ∨
      (oldManifest !! path = None ∧
       ∃ text,
         Object_prototype path = Some text ∧
         ThrownObject None (Some 500%Z)
         = thrown_of_exn (Error ("Invalid version format: " +:+ text))))).
Proof.
  apply (@detectMajorBumps_rejection spec_semver mock_runtime
           (mock_toolkit (Some mock_pull_request) ""
              (mock_octokit respond_server_error))
           (mock_octokit respond_server_error)
           ".release-please-manifest.json" "base-sha-123" "head-sha-456").
  reflexivity.
Defined.

(** X16.  A rejected fetch is never masked: when the fetch at the base
    or at the head ref is rejected, [detectMajorBumps] is rejected with
    the reason of a rejected fetch, even if the other manifest is absent
    or fine. *)
Theorem detectMajorBumps_fetch_rejected `{Semver} `{Runtime} `{Toolkit}
    (octokit : Octokit) (manifestPath baseSha headSha : string)
    (error : thrown) :
  getManifestAtRef octokit manifestPath baseSha = Rejected error ∨
  getManifestAtRef octokit manifestPath headSha = Rejected error →
  ∃ error',
    detectMajorBumps octokit manifestPath baseSha headSha = Rejected error' ∧
    (getManifestAtRef octokit manifestPath baseSha = Rejected error' ∨
     getManifestAtRef octokit manifestPath headSha = Rejected error').
Proof.
  intros Hrej.
  destruct (detectMajorBumps_inv octokit manifestPath baseSha headSha)
    as [(mo & mn & Eo & En & _)|(e & Ed & Hfetch)]; [|eauto].
  destruct Hrej; congruence.
Qed.

Lemma detectMajorBumps_fetch_rejected_witness :
  ∃ error',
    @detectMajorBumps spec_semver mock_runtime
      (mock_toolkit (Some mock_pull_request) "" (mock_octokit respond_server_error))
      (mock_octokit respond_server_error)
      ".release-please-manifest.json" "base-sha-123" "head-sha-456"
    = Rejected error' ∧
    (@getManifestAtRef mock_runtime
       (mock_toolkit (Some mock_pull_request) "" (mock_octokit respond_server_error))
       (mock_octokit respond_server_error)
       ".release-please-manifest.json" "base-sha-123" = Rejected error' ∨
     @getManifestAtRef mock_runtime
       (mock_toolkit (Some mock_pull_request) "" (mock_octokit respond_server_error))
       (mock_octokit respond_server_error)
       ".release-please-manifest.json" "head-sha-456" = Rejected error').
Proof.
  apply (@detectMajorBumps_fetch_rejected spec_semver mock_runtime
           (mock_toolkit (Some mock_pull_request) ""
              (mock_octokit respond_server_error))
           (mock_octokit respond_server_error)
           ".release-please-manifest.json" "base-sha-123" "head-sha-456"
           (ThrownObject None (Some 500%Z))).
  left. reflexivity.
Defined.

(* ===================================================================== *)
(** ** Facts about run *)
(* ===================================================================== *)

Section MainFacts.
Context `{Semver} `{Runtime} `{Toolkit}.

(** [run] when the event is a pull request and the inputs and the client
    are there: one line, then the analysis decides. *)
Lemma run_analysis (pr : PullRequest) (token manifest_file : string)
    (octokit : Octokit) :
  payload_pull_request context = Some pr →
  getInput INPUT_GITHUB_TOKEN true = Fulfilled token →
  getInput INPUT_MANIFEST_FILE false = Fulfilled manifest_file →
  getOctokit token = Fulfilled octokit →
  run =
    core_info ("Analyzing " +:+ manifest_file_or_default manifest_file +:+
               " changes between " +:+ base_sha pr +:+
               " and " +:+ head_sha pr)
    :: match detectMajorBumps octokit (manifest_file_or_default manifest_file)
               (base_sha pr) (head_sha pr) with
       | Fulfilled analysis =>
           (if hasMajorBump analysis
            then core_info "🚨 Major version bump(s) detected!"
                   :: (bump_line <$> Object_entries (majorBumps analysis))
            else [core_info "✅ No major version bumps detected"])
           ++ [core_setOutput_boolean OUTPUT_HAS_MAJOR_BUMP
                 (hasMajorBump analysis);
               core_setOutput_string OUTPUT_UPDATED_PATHS
                 (JSON_stringify (majorBumps analysis))]
       | Rejected error => [core_setFailed (failure_message error)]
       end.
Proof.
  intros Hpr Htoken Hfile Hocto. unfold run, run_try.
  rewrite Hpr, Htoken. cbn. rewrite Hfile. cbn. rewrite Hocto. cbn.
  fold (manifest_file_or_default manifest_file).
  destruct (detectMajorBumps _ _ _ _) as [analysis|error]; cbn; [|done].
  by destruct (hasMajorBump analysis).
Qed.

(** [run] when the [try] block is left before the analysis starts: one
    [core.setFailed] and nothing else. *)
Lemma run_early_failure :
  payload_pull_request context = None ∨
  (∃ error, getInput INPUT_GITHUB_TOKEN true = Rejected error) ∨
  (∃ error, getInput INPUT_MANIFEST_FILE false = Rejected error) ∨
  (∃ token error, getInput INPUT_GITHUB_TOKEN true = Fulfilled token ∧
                  getOctokit token = Rejected error) →
  ∃ error, run = [core_setFailed (failure_message error)].
Proof.
  unfold run, run_try.
  intros [->|Hrest]; [by eexists|].
  destruct (payload_pull_request context) as [pr|]; [|by eexists].
  destruct (getInput INPUT_GITHUB_TOKEN true) as [token|e1] eqn:Htoken;
    cbn; [|by eexists].
  destruct (getInput INPUT_MANIFEST_FILE false) as [mf|e2] eqn:Hfile;
    cbn; [|by eexists].
  destruct (getOctokit token) as [octokit|e3] eqn:Hocto; cbn; [|by eexists].
  destruct Hrest as [[e E]|[[e E]|(token' & e & [= <-] & E)]]; congruence.
Qed.

(** Either [run] leaves early, or it reaches the analysis. *)
Lemma run_cases :
  (∃ error, run = [core_setFailed (failure_message error)]) ∨
  (∃ pr token manifest_file octokit,
     payload_pull_request context = Some pr ∧
     getInput INPUT_GITHUB_TOKEN true = Fulfilled token ∧
     getInput INPUT_MANIFEST_FILE false = Fulfilled manifest_file ∧
     getOctokit token = Fulfilled octokit).
Proof.
  destruct (payload_pull_request context) as [pr|] eqn:Hpr;
    [|left; apply run_early_failure; by left].
  destruct (getInput INPUT_GITHUB_TOKEN true) as [token|e1] eqn:Htoken;
    [|left; apply run_early_failure; right; left; eauto].
  destruct (getInput INPUT_MANIFEST_FILE false) as [mf|e2] eqn:Hfile;
    [|left; apply run_early_failure; right; right; left; eauto].
  destruct (getOctokit token) as [octokit|e3] eqn:Hocto;
    [|left; apply run_early_failure; right; right; right; eauto].
  right. exists pr, token, mf, octokit. done.
Qed.

Lemma bump_line_is_info (entry : string * (string * string)) :
  is_info (bump_line entry).
Proof. destruct entry as [path [o n]]. by eexists. Qed.
End MainFacts.

(** X17.  [run] ends in exactly one of two ways: after some [core.info]
    lines it sets the two outputs, [has_major_bump] and then
    [updated_paths], from one analysis, and does not call
    [core.setFailed]; or after some [core.info] lines it calls
    [core.setFailed] once and sets no output. *)
Theorem run_outputs_or_failure `{Semver} `{Runtime} `{Toolkit} :
  (∃ lines analysis,
     Forall is_info lines ∧
     run = (lines ++
            [core_setOutput_boolean OUTPUT_HAS_MAJOR_BUMP (hasMajorBump analysis);
             core_setOutput_string OUTPUT_UPDATED_PATHS
               (JSON_stringify (majorBumps analysis))])%list) ∨
  (∃ lines error,
     Forall is_info lines ∧
     run = (lines ++ [core_setFailed (failure_message error)])%list).
Proof.
  destruct run_cases as [[error E]|(pr & token & mf & octokit & Hpr & Ht & Hf & Ho)].
  - right. exists [], error. split; [constructor|done].
  - rewrite (run_analysis pr token mf octokit Hpr Ht Hf Ho).
    destruct (detectMajorBumps _ _ _ _) as [analysis|error].
    + left. eexists (_ :: _), analysis. split; [|reflexivity].
      constructor; [by eexists|].
      destruct (hasMajorBump analysis).
      * constructor; [by eexists|]. apply Forall_fmap, Forall_forall.
        intros entry _. apply bump_line_is_info.
      * constructor; [by eexists|constructor].
    + right. eexists [_], error. split; [|reflexivity].
      constructor; [by eexists|constructor].
Qed.

(** X18.  The two outputs of [run] agree with each other and with the
    log: when [run] sets a boolean output, it is [has_major_bump], the
    string output [updated_paths] is the JSON text of a mapping that is
    non-empty exactly when the boolean is [true], every entry of that
    mapping has its line in the log, and [core.setFailed] is not
    called. *)
Theorem run_outputs_agree `{Semver} `{Runtime} `{Toolkit}
    (name : string) (flag : bool) :
  core_setOutput_boolean name flag ∈ run →
  name = OUTPUT_HAS_MAJOR_BUMP ∧
  ∃ bumps : gmap string (string * string),
    core_setOutput_string OUTPUT_UPDATED_PATHS (JSON_stringify bumps) ∈ run ∧
    (flag = true ↔ bumps ≠ ∅) ∧
    (∀ path old new,
       bumps !! path = Some (old, new) →
       bump_line (path, (old, new)) ∈ run) ∧
    (∀ message, core_setFailed message ∉ run).
Proof.
  destruct run_cases as [[error E]|(pr & token & mf & octokit & Hpr & Ht & Hf & Ho)].
  { rewrite E. intros Hin%list_elem_of_singleton. discriminate. }
  rewrite (run_analysis pr token mf octokit Hpr Ht Hf Ho).
  destruct (detectMajorBumps _ _ _ _) as [analysis|error] eqn:Ed.
  2:{ intros Hin. apply elem_of_cons in Hin as [Hin|Hin]; [discriminate|].
      apply list_elem_of_singleton in Hin. discriminate. }
  pose proof (detectMajorBumps_flag _ _ _ _ _ Ed) as Hflag.
  intros Hin.
  assert (core_setOutput_boolean name flag
          = core_setOutput_boolean OUTPUT_HAS_MAJOR_BUMP (hasMajorBump analysis))
    as [= -> ->].
  { apply elem_of_cons in Hin as [Hin|Hin]; [discriminate|].
    apply elem_of_app in Hin as [Hin|Hin].
    - exfalso. destruct (hasMajorBump analysis).
      + apply elem_of_cons in Hin as [Hin|Hin]; [discriminate|].
        apply list_elem_of_fmap in Hin as (entry & Hb & _).
        destruct (bump_line_is_info entry) as [m Hm]. congruence.
      + apply list_elem_of_singleton in Hin. discriminate.
    - apply elem_of_cons in Hin as [Hin|Hin]; [done|].
      apply list_elem_of_singleton in Hin. discriminate. }
  split; [done|]. exists (majorBumps analysis). repeat split.
  - right. apply elem_of_app. right. right. by left.
  - apply Hflag.
  - apply Hflag.
  - intros path old new Hl. right. apply elem_of_app. left.
    assert (hasMajorBump analysis = true) as ->.
    { apply Hflag. intros Hempty. by rewrite Hempty, lookup_empty in Hl. }
    right. apply list_elem_of_fmap. exists (path, (old, new)).
    split; [done|]. by apply elem_of_map_to_list.
  - intros message Hfailed.
    apply elem_of_cons in Hfailed as [Hfailed|Hfailed]; [discriminate|].
    apply elem_of_app in Hfailed as [Hfailed|Hfailed].
    + destruct (hasMajorBump analysis).
      * apply elem_of_cons in Hfailed as [Hfailed|Hfailed]; [discriminate|].
        apply list_elem_of_fmap in Hfailed as (entry & Hb & _).
        destruct (bump_line_is_info entry) as [m Hm]. congruence.
      * apply list_elem_of_singleton in Hfailed. discriminate.
    + apply elem_of_cons in Hfailed as [Hfailed|Hfailed]; [discriminate|].
      apply list_elem_of_singleton in Hfailed. discriminate.
Qed.

Lemma run_outputs_agree_witness :
  core_setOutput_boolean "has_major_bump" true
    ∈ @run spec_semver mock_runtime
        (mock_toolkit (Some mock_pull_request) "" (mock_octokit respond_both)) ∧
  "has_major_bump" = OUTPUT_HAS_MAJOR_BUMP ∧
  ∃ bumps : gmap string (string * string),
    core_setOutput_string OUTPUT_UPDATED_PATHS
      (@JSON_stringify mock_runtime bumps)
      ∈ @run spec_semver mock_runtime
          (mock_toolkit (Some mock_pull_request) "" (mock_octokit respond_both)) ∧
    (true = true ↔ bumps ≠ ∅) ∧
    (∀ path old new,
       bumps !! path = Some (old, new) →
       bump_line (path, (old, new))
         ∈ @run spec_semver mock_runtime
             (mock_toolkit (Some mock_pull_request) ""
                (mock_octokit respond_both))) ∧
    (∀ message,
       core_setFailed message
         ∉ @run spec_semver mock_runtime
             (mock_toolkit (Some mock_pull_request) ""
                (mock_octokit respond_both))).
Proof.
  assert (core_setOutput_boolean "has_major_bump" true
            ∈ @run spec_semver mock_runtime
                (mock_toolkit (Some mock_pull_request) ""
                   (mock_octokit respond_both))) as Hin.
  { vm_compute. do 4 (apply elem_of_cons; right). apply elem_of_cons. by left. }
  split; [exact Hin|].
  exact (@run_outputs_agree spec_semver mock_runtime
           (mock_toolkit (Some mock_pull_request) "" (mock_octokit respond_both))
           "has_major_bump" true Hin).
Defined.

(** X19.  On an event that is not a pull request, [run] makes a single
    call: [core.setFailed] with the message that says so.  It logs
    nothing and sets no output. *)
Theorem run_without_pull_request `{Semver} `{Runtime} `{Toolkit} :
  payload_pull_request context = None →
  run = [core_setFailed
           "Action failed: ⛔️ This action can only be run on pull_request events"].
Proof. unfold run, run_try. by intros ->. Qed.

Lemma run_without_pull_request_witness :
  @run spec_semver mock_runtime
    (mock_toolkit None "custom/path/manifest.json"
       (mock_octokit respond_server_error))
  = [core_setFailed
       "Action failed: ⛔️ This action can only be run on pull_request events"].
Proof.
  apply (@run_without_pull_request spec_semver mock_runtime
           (mock_toolkit None "custom/path/manifest.json"
              (mock_octokit respond_server_error))).
  reflexivity.
Defined.

(** The analysis does not survive a changed entry of the overlap with a
    string that does not parse. *)
Lemma analyze_throws_malformed `{Semver}
    (oldManifest newManifest : gmap string string)
    (path old new : string) :
  oldManifest !! path = Some old →
  newManifest !! path = Some new →
  old ≠ "" → old ≠ new →
  semver_parse old = None ∨ semver_parse new = None →
  ∃ culprit,
    (semver_parse culprit = None ∨
     ∃ path', is_Some (newManifest !! path') ∧
              oldManifest !! path' = None ∧
              Object_prototype path' = Some culprit) ∧
    analyzeManifestChanges (Some oldManifest) (Some newManifest)
    = Throw (InvalidVersionFormat culprit).
Proof.
  intros Ho Hn Hne Hdiff Hbad.
  destruct (isMajorBump_unparsable _ _ Hbad) as (bad0 & _ & _ & Eb).
  rewrite <- (is_recorded_checked _ _ Hne Hdiff) in Eb.
  pose proof (visit_recorded oldManifest ∅ _ _ _ _ Ho Eb) as Hv.
  destruct (analyze_throws _ _ _ _ _ _ Hn Hv) as [e' Ea].
  destruct (analyze_Throw_at _ _ _ Ea)
    as (p' & n' & Hn' & [(o' & _ & _ & _ & Eb')|(Ho' & text & Hp & ->)]).
  - destruct (isMajorBump_Throw_inv _ _ _ Eb') as [Ep|[_ Ep]];
      apply parseVersion_Throw in Ep as [Hnone ->]; eauto.
  - exists text. split; [|done]. right. exists p'. eauto.
Qed.

(** X20.  End to end: on a pull request whose two manifests are fetched
    and share a path with a non-empty old string that differs from the
    new one, one of the two not parsing, [run] logs its first line and
    then fails with ["Action failed: Invalid version format: "] followed
    by a text that is a string [semver.parse] rejects, or the member of
    [Object.prototype] named by a path that only the new manifest has;
    no output is set. *)
Theorem run_reports_malformed_version `{Semver} `{Runtime} `{Toolkit}
    (pr : PullRequest) (token manifest_file : string) (octokit : Octokit)
    (oldManifest newManifest : gmap string string) (path old new : string) :
  payload_pull_request context = Some pr →
  getInput INPUT_GITHUB_TOKEN true = Fulfilled token →
  getInput INPUT_MANIFEST_FILE false = Fulfilled manifest_file →
  getOctokit token = Fulfilled octokit →
  getManifestAtRef octokit (manifest_file_or_default manifest_file)
    (base_sha pr) = Fulfilled (Some oldManifest) →
  getManifestAtRef octokit (manifest_file_or_default manifest_file)
    (head_sha pr) = Fulfilled (Some newManifest) →
  oldManifest !! path = Some old →
  newManifest !! path = Some new →
  old ≠ "" → old ≠ new →
  semver_parse old = None ∨ semver_parse new = None →
  ∃ bad,
    (semver_parse bad = None ∨
     ∃ path', is_Some (newManifest !! path') ∧
              oldManifest !! path' = None ∧
              Object_prototype path' = Some bad) ∧
    run = [core_info ("Analyzing " +:+ manifest_file_or_default manifest_file +:+
                      " changes between " +:+ base_sha pr +:+
                      " and " +:+ head_sha pr);
           core_setFailed ("Action failed: Invalid version format: " +:+ bad)].
Proof.
  intros Hpr Ht Hf Hocto Ebase Ehead Ho Hn Hne Hdiff Hbad.
  destruct (analyze_throws_malformed _ _ _ _ _ Ho Hn Hne Hdiff Hbad)
    as (bad & Hnone & Ea).
  exists bad. split; [done|].
  rewrite (run_analysis pr token manifest_file octokit Hpr Ht Hf Hocto).
  rewrite (detectMajorBumps_fetched _ _ _ _ _ _ Ebase Ehead), Ea.
  reflexivity.
Qed.

Lemma run_reports_malformed_version_witness :
  ∃ bad,
    (@semver_parse spec_semver bad = None ∨
     ∃ path', is_Some (({[ "." := "2.0" ]} : gmap string string) !! path') ∧
              ({[ "." := "1.2.3" ; "packages/foo" := "3.5.0" ]}
                 : gmap string string) !! path' = None ∧
              Object_prototype path' = Some bad) ∧
    @run spec_semver mock_runtime
      (mock_toolkit (Some mock_pull_request) ""
         (mock_octokit respond_malformed_head))
    = [core_info ("Analyzing " +:+ manifest_file_or_default "" +:+
                  " changes between " +:+ base_sha mock_pull_request +:+
                  " and " +:+ head_sha mock_pull_request);
       core_setFailed ("Action failed: Invalid version format: " +:+ bad)].
Proof.
  refine (@run_reports_malformed_version spec_semver mock_runtime
            (mock_toolkit (Some mock_pull_request) ""
               (mock_octokit respond_malformed_head))
            mock_pull_request "test-token" ""
            (mock_octokit respond_malformed_head)
            {[ "." := "1.2.3" ; "packages/foo" := "3.5.0" ]}
            {[ "." := "2.0" ]} "." "1.2.3" "2.0"
            _ _ _ _ _ _ _ _ _ _ _);
    try (vm_compute; reflexivity); try discriminate.
  right. reflexivity.
Defined.

(** X21.  End to end: on a pull request, when the manifest is absent at
    the base or at the head ref and the other fetch is fulfilled, [run]
    does not fail: it logs that no major bump was detected and sets
    [has_major_bump] to [false] and [updated_paths] to the JSON text of
    the empty mapping. *)
Theorem run_absent_manifest `{Semver} `{Runtime} `{Toolkit}
    (pr : PullRequest) (token manifest_file : string) (octokit : Octokit)
    (oldManifest newManifest : option (gmap string string)) :
  payload_pull_request context = Some pr →
  getInput INPUT_GITHUB_TOKEN true = Fulfilled token →
  getInput INPUT_MANIFEST_FILE false = Fulfilled manifest_file →
  getOctokit token = Fulfilled octokit →
  getManifestAtRef octokit (manifest_file_or_default manifest_file)
    (base_sha pr) = Fulfilled oldManifest →
  getManifestAtRef octokit (manifest_file_or_default manifest_file)
    (head_sha pr) = Fulfilled newManifest →
  oldManifest = None ∨ newManifest = None →
  run = [core_info ("Analyzing " +:+ manifest_file_or_default manifest_file +:+
                    " changes between " +:+ base_sha pr +:+
                    " and " +:+ head_sha pr);
         core_info "✅ No major version bumps detected";
         core_setOutput_boolean OUTPUT_HAS_MAJOR_BUMP false;
         core_setOutput_string OUTPUT_UPDATED_PATHS (JSON_stringify ∅)].
Proof.
  intros Hpr Ht Hf Hocto Ebase Ehead Habsent.
  rewrite (run_analysis pr token manifest_file octokit Hpr Ht Hf Hocto).
  rewrite (detectMajorBumps_fetched _ _ _ _ _ _ Ebase Ehead).
  assert (analyzeManifestChanges oldManifest newManifest
          = Ok {| hasMajorBump := false ; majorBumps := ∅ |}) as ->; [|done].
  destruct Habsent as [->| ->]; [done|]. by destruct oldManifest.
Qed.

Lemma run_absent_manifest_witness :
  @run spec_semver mock_runtime
    (mock_toolkit (Some mock_pull_request) ""
       (mock_octokit respond_base_missing))
  = [core_info ("Analyzing " +:+ manifest_file_or_default "" +:+
                " changes between " +:+ base_sha mock_pull_request +:+
                " and " +:+ head_sha mock_pull_request);
     core_info "✅ No major version bumps detected";
     core_setOutput_boolean OUTPUT_HAS_MAJOR_BUMP false;
     core_setOutput_string OUTPUT_UPDATED_PATHS (@JSON_stringify mock_runtime ∅)].
Proof.
  refine (@run_absent_manifest spec_semver mock_runtime
            (mock_toolkit (Some mock_pull_request) ""
               (mock_octokit respond_base_missing))
            mock_pull_request "test-token" ""
            (mock_octokit respond_base_missing)
            None (Some {[ "." := "2.0.0" ; "packages/foo" := "4.0.0" ]})
            _ _ _ _ _ _ _);
    try (vm_compute; reflexivity).
  by left.
Defined.

(** X22.  An empty [manifest_file] input is the default path: [run]
    makes the same calls as with the input set to
    [.release-please-manifest.json]. *)
Theorem run_default_manifest_file `{Semver} `{Runtime} `{Toolkit} :
  getInput INPUT_MANIFEST_FILE false = Fulfilled "" →
  run
  = @run _ _ {| context := context ;
                getInput name required :=
                  if bool_decide (name = INPUT_MANIFEST_FILE)
                  then Fulfilled ".release-please-manifest.json"
                  else getInput name required ;
                getOctokit := getOctokit |}.
Proof.
  intros Hf. unfold run, run_try. cbn [context getInput getOctokit].
  destruct (payload_pull_request context) as [pr|]; [|done].
  rewrite Hf. rewrite bool_decide_eq_false_2 by discriminate.
  rewrite bool_decide_eq_true_2 by done.
  destruct (getInput INPUT_GITHUB_TOKEN true) as [token|e]; [|done].
  reflexivity.
Qed.

Lemma run_default_manifest_file_witness :
  @run spec_semver mock_runtime
    (mock_toolkit (Some mock_pull_request) "" (mock_octokit respond_both))
  = @run spec_semver mock_runtime
      {| context := @context
           (mock_toolkit (Some mock_pull_request) "" (mock_octokit respond_both)) ;
         getInput name required :=
           if bool_decide (name = INPUT_MANIFEST_FILE)
           then Fulfilled ".release-please-manifest.json"
           else @getInput
                  (mock_toolkit (Some mock_pull_request) ""
                     (mock_octokit respond_both)) name required ;
         getOctokit := @getOctokit
           (mock_toolkit (Some mock_pull_request) "" (mock_octokit respond_both)) |}.
Proof.
  apply (@run_default_manifest_file spec_semver mock_runtime
           (mock_toolkit (Some mock_pull_request) "" (mock_octokit respond_both))).
  reflexivity.
Defined.
